(** * amaunator: the target supervisor, the periodic scheduler and the
      result pipeline, embedded from the Python sources.

    Conventions of the embedding:
    - a Python [int] is a [Z]; a [float] of seconds (event-loop time,
      timestamps) is a rational [Q], the exact value the float approximates;
    - a [uuid.UUID] is its 128-bit integer value, an [N];
    - a [dict] is a [gmap]; the operations embedded here do not depend on
      the insertion order of the dictionaries (see [stop_all_any_order]);
    - objects that are shared by reference ([asyncio.Event], the tasks made
      by [asyncio.create_task]) live in explicit stores and are named by
      their allocation index;
    - log calls are left out: they change no state the program reads. *)

From Stdlib Require Import ZArith QArith Qminmax Lqa Lia List String.
From stdpp Require Import base option list gmap strings.

Local Open Scope Z_scope.

(** ** models.py *)

Module Models.

Abbreviation UUID := N (only parsing).

(** Python exceptions that the modelled code raises or catches. All of
    them are subclasses of [Exception]. *)
Inductive exn : Type :=
| ValueError (msg : string)
| TimeoutError
| OSError (msg : string)
| RuntimeError (msg : string).

Record TargetCreate : Type := mkTargetCreate {
  name : string;
  interval : Z;
  timeout : Z
}.

(** [TargetCreate.check_interval], the [model_validator(mode="after")]. *)
Definition check_interval (self : TargetCreate) : exn + TargetCreate :=
  if interval self <? timeout self
  then inl (ValueError "Interval must be equal to or greater than timeout")
  else inr self.

(** [class Target(TargetCreate)]: the inherited fields and the id. *)
Record Target : Type := mkTarget {
  fields :> TargetCreate;
  id : UUID
}.

(** The constructor of [Target] from keyword arguments: the inherited
    validator runs, then the
    [default_factory] of [id] supplies [uuid4()], here the argument
    [fresh]. *)
Definition Target_new (kwargs : TargetCreate) (fresh : UUID) : exn + Target :=
  match check_interval kwargs with
  | inl e => inl e
  | inr v => inr (mkTarget v fresh)
  end.

Record TargetStatus : Type := mkTargetStatus {
  last_check : option Q;
  last_value : option Z;
  check_count : Z;
  error_count : Z
}.

(** [TargetStatus()] with every field at its default. *)
Definition TargetStatus_new : TargetStatus :=
  mkTargetStatus None None 0 0.

Record TargetResult : Type := mkTargetResult {
  target_id : UUID;
  value : Z;
  timestamp : Q
}.

(** [TargetResult(target_id=.., value=..)]: [timestamp] comes from
    [Field(default_factory=lambda: 0.0)]. *)
Definition TargetResult_new (tid : UUID) (v : Z) : TargetResult :=
  mkTargetResult tid v (0 # 1).

Record SystemStats : Type := mkSystemStats {
  active_targets : Z;
  processed_messages : Z;
  uptime_seconds : Q;
  queue_size : Z;
  total_errors : Z
}.

End Models.

(** ** core/metrics.py *)

Module Metrics.
Import Models.

Record Registry : Type := mkRegistry {
  ACTIVE_TARGETS : Z;
  PROCESSED_MESSAGES : Z;
  PROCESSING_ERRORS : Z;
  QUEUE_SIZE : Z;
  (** labelled gauge, keyed by [(target_name, target_id)] *)
  TARGET_VALUE : gmap (string * UUID) Z
}.

Definition initial : Registry := mkRegistry 0 0 0 0 ∅.

Definition active_targets_add (d : Z) (r : Registry) : Registry :=
  mkRegistry (ACTIVE_TARGETS r + d) (PROCESSED_MESSAGES r)
             (PROCESSING_ERRORS r) (QUEUE_SIZE r) (TARGET_VALUE r).

Definition processed_messages_inc (r : Registry) : Registry :=
  mkRegistry (ACTIVE_TARGETS r) (PROCESSED_MESSAGES r + 1)
             (PROCESSING_ERRORS r) (QUEUE_SIZE r) (TARGET_VALUE r).

Definition processing_errors_inc (r : Registry) : Registry :=
  mkRegistry (ACTIVE_TARGETS r) (PROCESSED_MESSAGES r)
             (PROCESSING_ERRORS r + 1) (QUEUE_SIZE r) (TARGET_VALUE r).

Definition queue_size_set (n : Z) (r : Registry) : Registry :=
  mkRegistry (ACTIVE_TARGETS r) (PROCESSED_MESSAGES r)
             (PROCESSING_ERRORS r) n (TARGET_VALUE r).

Definition target_value_set (nm : string) (tid : UUID) (v : Z)
    (r : Registry) : Registry :=
  mkRegistry (ACTIVE_TARGETS r) (PROCESSED_MESSAGES r)
             (PROCESSING_ERRORS r) (QUEUE_SIZE r)
             (<[(nm, tid) := v]> (TARGET_VALUE r)).

End Metrics.

(** ** core/manager.py *)

Module Manager.
Import Models.

(** The four dictionaries of [MonitorManager]. A task and a stop event
    are named by their index in the stores of [State] below. *)
Record MonitorManager : Type := mkMonitorManager {
  tasks : gmap UUID nat;
  stop_events : gmap UUID nat;
  targets : gmap UUID Target;
  target_statuses : gmap UUID TargetStatus
}.

(** What the supervisor's methods read and write: its own dictionaries,
    the [asyncio.Event] objects (their flags), the coroutines given to
    [asyncio.create_task] (the target and the stop event each was bound
    to) and the metrics registry. *)
Record State : Type := mkState {
  mm : MonitorManager;
  events : list bool;
  created_tasks : list (Target * nat);
  metrics : Metrics.Registry
}.

(** [MonitorManager.__init__] at process start. *)
Definition init : State :=
  mkState (mkMonitorManager ∅ ∅ ∅ ∅) [] [] Metrics.initial.

Definition get_target (target_id : UUID) (s : State) : option Target :=
  targets (mm s) !! target_id.

Definition get_target_with_status (target_id : UUID) (s : State)
    : option (Target * TargetStatus) :=
  match targets (mm s) !! target_id with
  | None => None
  | Some target =>
      let status := default TargetStatus_new (target_statuses (mm s) !! target_id) in
      Some (target, status)
  end.

Definition get_active_count (s : State) : Z :=
  Z.of_nat (size (tasks (mm s))).

(** The four assignments on the status object, lines 71-76. *)
Definition record_check (value : Z) (timestamp : Q) (status : TargetStatus)
    : TargetStatus :=
  let check_count1 := check_count status + 1 in
  let last_check1 := Some timestamp in
  let last_value1 := Some value in
  let error_count1 :=
    if value <? 0 then error_count status + 1 else error_count status in
  mkTargetStatus last_check1 last_value1 check_count1 error_count1.

Definition update_target_status (target_id : UUID) (value : Z) (timestamp : Q)
    (s : State) : State :=
  let m := mm s in
  (* if target_id not in self.target_statuses: ... = TargetStatus() *)
  let statuses1 :=
    match target_statuses m !! target_id with
    | None => <[target_id := TargetStatus_new]> (target_statuses m)
    | Some _ => target_statuses m
    end in
  (* status = self.target_statuses[target_id]; the key is present here *)
  match statuses1 !! target_id with
  | None => s
  | Some status =>
      let statuses2 := <[target_id := record_check value timestamp status]> statuses1 in
      mkState (mkMonitorManager (tasks m) (stop_events m) (targets m) statuses2)
              (events s) (created_tasks s) (metrics s)
  end.

Definition start_monitoring (target : Target) (s : State) : State :=
  let m := mm s in
  match tasks m !! id target with
  | Some _ => s
  | None =>
      let targets1 := <[id target := target]> (targets m) in
      let statuses1 := <[id target := TargetStatus_new]> (target_statuses m) in
      (* stop_event = asyncio.Event() *)
      let stop_event := length (events s) in
      let events1 := events s ++ [false] in
      let stop_events1 := <[id target := stop_event]> (stop_events m) in
      (* task = asyncio.create_task(self.monitor_func(queue, target, stop_event)) *)
      let task := length (created_tasks s) in
      let created1 := created_tasks s ++ [(target, stop_event)] in
      let tasks1 := <[id target := task]> (tasks m) in
      mkState (mkMonitorManager tasks1 stop_events1 targets1 statuses1)
              events1 created1
              (Metrics.active_targets_add 1 (metrics s))
  end.

Definition stop_monitoring (target_id : UUID) (s : State) : State :=
  let m := mm s in
  match tasks m !! target_id with
  | None => s
  | Some _ =>
      (* if target_id in self.stop_events: set it, then forget it *)
      let '(events1, stop_events1) :=
        match stop_events m !! target_id with
        | Some ev => (<[ev := true]> (events s), delete target_id (stop_events m))
        | None => (events s, stop_events m)
        end in
      let tasks1 := delete target_id (tasks m) in
      let targets1 :=
        match targets m !! target_id with
        | Some _ => delete target_id (targets m)
        | None => targets m
        end in
      let statuses1 :=
        match target_statuses m !! target_id with
        | Some _ => delete target_id (target_statuses m)
        | None => target_statuses m
        end in
      mkState (mkMonitorManager tasks1 stop_events1 targets1 statuses1)
              events1 (created_tasks s)
              (Metrics.active_targets_add (-1) (metrics s))
  end.

(** The loop of [stop_all] over a snapshot of ids. *)
Definition stop_all_ids (ids : list UUID) (s : State) : State :=
  foldl (fun acc target_id => stop_monitoring target_id acc) s ids.

(** [for target_id in list(self.tasks.keys()): self.stop_monitoring(target_id)] *)
Definition stop_all (s : State) : State :=
  stop_all_ids (map fst (map_to_list (tasks (mm s)))) s.

(** The registry invariant of the specification: the four dictionaries
    have the same keys. *)
Definition lockstep (s : State) : Prop :=
  dom (targets (mm s)) = dom (tasks (mm s)) ∧
  dom (target_statuses (mm s)) = dom (tasks (mm s)) ∧
  dom (stop_events (mm s)) = dom (tasks (mm s)).

(** What holds of every reachable state: definitions, tasks and stop
    events go together, and each of them has a status. *)
Definition registered_have_status (s : State) : Prop :=
  dom (targets (mm s)) = dom (tasks (mm s)) ∧
  dom (stop_events (mm s)) = dom (tasks (mm s)) ∧
  dom (tasks (mm s)) ⊆ dom (target_statuses (mm s)).

End Manager.

(** ** core/monitoring.py *)

Module Monitoring.
Import Models.

(** *** The periodic scheduler: [periodic_task(...)(func)], the [wrapper]

    The wrapper is an asynchronous generator; what it does depends on
    what it observes at its suspension points. One [Cycle] holds the
    observations of one turn of its [while] loop: the two readings of
    the stop event, the clock, how the decorated generator [func] ran
    and how long, and the reading of the stop event in the handler. *)

Section PeriodicTask.
(** What one run of [func(target, stop_event, ...)] observes. *)
Variable Env : Type.
(** One run of the decorated generator: the items it yields, and the
    exception that ends it, if any. *)
Variable func : Target -> Env -> list TargetResult * option exn.

Record Cycle : Type := mkCycle {
  stop_at_test : bool;
  now : Q;
  stop_after_wait : bool;
  body_env : Env;
  body_elapsed : Q;
  stop_in_handler : bool
}.

Record Emission : Type := mkEmission {
  item : TargetResult;
  emitted_at : Q
}.

(** The trace of one completed turn of the loop. *)
Record CycleLog : Type := mkCycleLog {
  deadline : Q;          (* next_run_time when the turn began *)
  woke_at : Q;           (* when the wait of step 2 ended *)
  emissions : list Emission;
  slept_after_error : bool
}.

Inductive Exit : Type :=
| Stopped
| Suspended (next_run_time : Q).

Fixpoint wrapper_loop (target : Target) (interval : Z) (next_run_time : Q)
    (obs : list Cycle) : list CycleLog * Exit :=
  match obs with
  | [] => ([], Suspended next_run_time)
  | c :: rest =>
      (* while not stop_event.is_set() *)
      if stop_at_test c then ([], Stopped) else
      (* delay = max(0, next_run_time - now) *)
      let delay := Qmax (0 # 1) (next_run_time - now c)%Q in
      (* wait_for(stop_event.wait(), timeout=delay); if set: break *)
      if stop_after_wait c then ([], Stopped) else
      let woke := (now c + delay)%Q in
      (* async for item in func(...): yield item / except Exception *)
      let '(items, raised) := func target (body_env c) in
      let ems := map (fun it => mkEmission it (woke + body_elapsed c)%Q) items in
      let slept :=
        match raised with
        | Some _ => negb (stop_in_handler c)
        | None => false
        end in
      (* next_run_time += interval *)
      let next := (next_run_time + inject_Z interval)%Q in
      let '(logs, ex) := wrapper_loop target interval next rest in
      (mkCycleLog next_run_time woke ems slept :: logs, ex)
  end.

(** [wrapper(target, stop_event)]: [start] is the value of
    [loop.time()] read before the loop. *)
Definition wrapper (target : Target) (start : Q) (obs : list Cycle)
    : list CycleLog * Exit :=
  let interval := interval target in
  let next_run_time := start in
  wrapper_loop target interval next_run_time obs.

(** Every item the generator yields, in order, with its time. *)
Definition emitted (logs : list CycleLog) : list Emission :=
  concat (map emissions logs).

End PeriodicTask.

Arguments mkCycle {Env}.
Arguments stop_at_test {Env}.
Arguments now {Env}.
Arguments stop_after_wait {Env}.
Arguments body_env {Env}.
Arguments body_elapsed {Env}.
Arguments stop_in_handler {Env}.
Arguments wrapper_loop {Env}.
Arguments wrapper {Env}.

(** *** The mock poll function *)

(** [random.randint(a, b)]: [ValueError] on an empty range, otherwise
    the value the generator's draw selects in [a..b]. *)
Definition randint (a b : Z) (draw : Z) : exn + Z :=
  if b <? a then inl (ValueError "empty range in randrange")
  else inr (a + draw mod (b - a + 1)).

(** [round(timeout * 1.2)] for an integer [timeout]: the nearest integer
    to [6 * timeout / 5], which is never half-way between two. The
    product is a double: it is within a tenth of [6 * timeout / 5], and
    so rounds to this value, for timeouts below 2^48. *)
Definition round_1_2 (timeout : Z) : Z := (12 * timeout + 5) / 10.

(** The [async with asyncio.timeout(target.timeout)] block: its outcome
    and the seconds it took. The arguments of [sleep] are evaluated
    first; the sleep is cut short when the deadline comes no later than
    its end. *)
Definition poll_block (target : Target) (draw_sleep draw_value : Z)
    : (exn + Z) * Z :=
  match randint 1 (round_1_2 (timeout target)) draw_sleep with
  | inl e => (inl e, 0)
  | inr secs =>
      if timeout target <=? secs then (inl TimeoutError, timeout target)
      else (randint 0 100 draw_value, secs)
  end.

(** [poll(target)]: the value returned and the seconds elapsed. *)
Definition poll (target : Target) (draw_sleep draw_value : Z) : Z * Z :=
  match poll_block target draw_sleep draw_value with
  | (inr reading, secs) => (reading, secs)
  | (inl TimeoutError, secs) => (-1, secs)
  | (inl _, secs) => (-1, secs)
  end.

(** *** [monitor_stream] and [monitor] *)

(** The generator under the decorator. Its one observation is how the
    awaited [poll_func(target)] ended. *)
Definition monitor_stream_body (target : Target) (poll_outcome : exn + Z)
    : list TargetResult * option exn :=
  match poll_outcome with
  | inl e => ([], Some e)
  | inr result => ([TargetResult_new (id target) result], None)
  end.

(** [monitor_stream = periodic_task(interval_attr="interval")(...)] *)
Definition monitor_stream (target : Target) (start : Q)
    (obs : list (Cycle (exn + Z))) : list CycleLog * Exit :=
  wrapper monitor_stream_body target start obs.

(** [monitor]: every item of the stream is put on the queue. *)
Definition monitor (queue : list TargetResult) (target : Target) (start : Q)
    (obs : list (Cycle (exn + Z))) : list TargetResult :=
  queue ++ map item (emitted (fst (monitor_stream target start obs))).

End Monitoring.

(** ** outputs.py *)

Module Outputs.
Import Models.

(** [class OutputHandler(ABC)]: one method. A sink has a state of its
    own; a call returns the state it leaves behind and the exception it
    raises, if any. *)
Class OutputHandler (S : Type) : Type :=
  handle : TargetResult -> string -> S -> S * option exn.

(** [ConsoleOutputHandler]: one logger line per result, a warning when
    the name is empty. *)
Inductive ConsoleLine : Type :=
| Info (value : Z) (target_name : string) (target_id : UUID)
| Warning (value : Z) (target_id : UUID).

#[export] Instance ConsoleOutputHandler : OutputHandler (list ConsoleLine) :=
  fun target_result target_name out =>
    if String.eqb target_name ""
    then (out ++ [Warning (value target_result) (target_id target_result)], None)
    else (out ++ [Info (value target_result) target_name (target_id target_result)], None).

(** [FileOutputHandler]: the file system is the environment. [io_error]
    is what rotating or opening the file raises, if anything; otherwise
    one line is appended, here its three fields. *)
Record FileSink : Type := mkFileSink {
  io_error : option exn;
  lines : list (string * UUID * Z)
}.

#[export] Instance FileOutputHandler : OutputHandler FileSink :=
  fun target_result target_name f =>
    match io_error f with
    | Some e => (f, Some e)
    | None =>
        let shown := if String.eqb target_name "" then "unknown"%string else target_name in
        (mkFileSink None
           (lines f ++ [(shown, target_id target_result, value target_result)]),
         None)
    end.

Section Processor.
Context {S : Type} `{OutputHandler S}.

(** [OutputProcessor] with the objects it shares: the supervisor, the
    queue (its items, oldest first, and the count of unfinished tasks
    that [put] raises and [task_done] lowers) and the handler. *)
Record OutputProcessor : Type := mkOutputProcessor {
  monitor_manager : Manager.State;
  queue : list TargetResult;
  unfinished_tasks : Z;
  handler : S;
  processed_count : Z;
  error_count : Z;
  stop_event : bool
}.

(** [OutputProcessor.__init__] over a new queue. *)
Definition init (s : Manager.State) (h : S) : OutputProcessor :=
  mkOutputProcessor s [] 0 h 0 0 false.

(** Statements of [run] that may raise while the state they changed
    stays changed. *)
Definition M (A : Type) : Type :=
  OutputProcessor -> OutputProcessor * (exn + A).

Definition ret {A} (a : A) : M A := fun p => (p, inr a).

Definition bind {A B} (c : M A) (k : A -> M B) : M B :=
  fun p =>
    match c p with
    | (p1, inr a) => k a p1
    | (p1, inl e) => (p1, inl e)
    end.

Definition raise {A} (e : exn) : M A := fun p => (p, inl e).

Definition reads {A} (f : OutputProcessor -> A) : M A := fun p => (p, inr (f p)).

Definition modify (f : OutputProcessor -> OutputProcessor) : M unit :=
  fun p => (f p, inr tt).

(** A call into a library that raises [e] when the environment says
    so, before it has any effect. *)
Definition may_raise (fault : option exn) : M unit :=
  match fault with
  | Some e => raise e
  | None => ret tt
  end.

Definition with_manager (f : Manager.State -> Manager.State) (p : OutputProcessor)
    : OutputProcessor :=
  mkOutputProcessor (f (monitor_manager p)) (queue p) (unfinished_tasks p)
    (handler p) (processed_count p) (error_count p) (stop_event p).

Definition with_metrics (f : Metrics.Registry -> Metrics.Registry)
    : OutputProcessor -> OutputProcessor :=
  with_manager (fun s =>
    Manager.mkState (Manager.mm s) (Manager.events s) (Manager.created_tasks s)
      (f (Manager.metrics s))).

(** [asyncio.Queue.put]. *)
Definition queue_put (r : TargetResult) (p : OutputProcessor) : OutputProcessor :=
  mkOutputProcessor (monitor_manager p) (queue p ++ [r]) (unfinished_tasks p + 1)
    (handler p) (processed_count p) (error_count p) (stop_event p).

(** The item that [get_task] took off the queue. *)
Definition queue_pop (p : OutputProcessor) : OutputProcessor :=
  mkOutputProcessor (monitor_manager p) (tail (queue p)) (unfinished_tasks p)
    (handler p) (processed_count p) (error_count p) (stop_event p).

(** [asyncio.Queue.task_done]. *)
Definition task_done : M unit :=
  fun p =>
    if unfinished_tasks p <=? 0
    then (p, inl (ValueError "task_done() called too many times"))
    else (mkOutputProcessor (monitor_manager p) (queue p) (unfinished_tasks p - 1)
            (handler p) (processed_count p) (error_count p) (stop_event p),
          inr tt).

Definition with_handler (h : S) (p : OutputProcessor) : OutputProcessor :=
  mkOutputProcessor (monitor_manager p) (queue p) (unfinished_tasks p)
    h (processed_count p) (error_count p) (stop_event p).

(** [await self.handler.handle(target_result, target_name)]. *)
Definition call_handler (target_result : TargetResult) (target_name : string)
    : M unit :=
  fun p =>
    let '(h1, raised) := handle target_result target_name (handler p) in
    match raised with
    | Some e => (with_handler h1 p, inl e)
    | None => (with_handler h1 p, inr tt)
    end.

Definition processed_count_inc (p : OutputProcessor) : OutputProcessor :=
  mkOutputProcessor (monitor_manager p) (queue p) (unfinished_tasks p)
    (handler p) (processed_count p + 1) (error_count p) (stop_event p).

Definition error_count_inc (p : OutputProcessor) : OutputProcessor :=
  mkOutputProcessor (monitor_manager p) (queue p) (unfinished_tasks p)
    (handler p) (processed_count p) (error_count p + 1) (stop_event p).

Definition set_stop_event (p : OutputProcessor) : OutputProcessor :=
  mkOutputProcessor (monitor_manager p) (queue p) (unfinished_tasks p)
    (handler p) (processed_count p) (error_count p) true.

(** What the library calls of one turn do: [validate_error] is what
    [model_validate] raises on the queued item, [metrics_error] what
    setting the labelled gauge [TARGET_VALUE] raises. *)
Record Faults : Type := mkFaults {
  validate_error : option exn;
  metrics_error : option exn
}.

Definition no_faults : Faults := mkFaults None None.

Notation "'let*' x := c1 'in' c2" := (bind c1 (fun x => c2))
  (at level 10, x name, c1 at level 100, c2 at level 200).
Notation "c1 >> c2" := (bind c1 (fun _ => c2))
  (at level 100, c2 at level 200, right associativity).

(** Lines 155-176: the statements of the [try] block that follow the
    wait, for the item [result] taken off the queue. *)
Definition process_item (f : Faults) (result : TargetResult) : M unit :=
  (* target_result = TargetResult.model_validate(result) *)
  may_raise (validate_error f) >>
  let target_result := result in
  (* target = self.monitor_manager.get_target(target_result.target_id) *)
  let* target :=
    reads (fun p => Manager.get_target (target_id target_result) (monitor_manager p)) in
  let target_name :=
    match target with
    | Some t => name t
    | None => "unknown"%string
    end in
  modify (with_manager
            (Manager.update_target_status (target_id target_result)
               (value target_result) (timestamp target_result))) >>
  call_handler target_result target_name >>
  modify processed_count_inc >>
  modify (with_metrics Metrics.processed_messages_inc) >>
  (* TARGET_VALUE.labels(...).set(target_result.value) *)
  may_raise (metrics_error f) >>
  modify (with_metrics
            (Metrics.target_value_set target_name (target_id target_result)
               (value target_result))) >>
  task_done.

(** The [except Exception] clause. *)
Definition on_error (p : OutputProcessor) : OutputProcessor :=
  with_metrics Metrics.processing_errors_inc (error_count_inc p).

Inductive LoopStatus : Type :=
| Running      (* back at the [while] test *)
| Waiting      (* suspended in [asyncio.wait]: no item, no stop *)
| Exited.      (* left the loop *)

(** One turn of the [while] loop of [run], taken when the consumer is
    at the loop test and nothing else runs before the item is processed:
    the loop test, the gauge, the item that [get_task] takes and the rest
    of the [try] block. The steps of such a turn, with what can happen
    between them (the second test of the stop event included), are in
    [Consumer] below. *)
Definition turn (f : Faults) (p : OutputProcessor) : OutputProcessor * LoopStatus :=
  if stop_event p then (p, Exited) else
  (* QUEUE_SIZE.set(self.queue.qsize()) *)
  let p1 := with_metrics (Metrics.queue_size_set (Z.of_nat (length (queue p)))) p in
  match queue p1 with
  | [] => (p1, Waiting)
  | result :: _ =>
      match process_item f result (queue_pop p1) with
      | (p2, inr _) => (p2, Running)
      | (p2, inl _) => (on_error p2, Running)
      end
  end.

(** What happens around the consumer while it runs. *)
Inductive Event : Type :=
| Put (r : TargetResult)          (* a scheduler: [await queue.put(result_data)] *)
| Start (target : Target)         (* the API: [start_monitoring] *)
| Stop (target_id : UUID)         (* the API: [stop_monitoring] *)
| StopAll                         (* shutdown: [stop_all] *)
| SetStop                         (* shutdown: [stop_event.set()] *)
| Turn (f : Faults).              (* the consumer takes a turn *)

Definition step (ev : Event) (p : OutputProcessor) : OutputProcessor * LoopStatus :=
  match ev with
  | Put r => (queue_put r p, Running)
  | Start target => (with_manager (Manager.start_monitoring target) p, Running)
  | Stop target_id => (with_manager (Manager.stop_monitoring target_id) p, Running)
  | StopAll => (with_manager Manager.stop_all p, Running)
  | SetStop => (set_stop_event p, Running)
  | Turn f => turn f p
  end.

(** The pipeline over a sequence of events, up to the consumer's exit. *)
Fixpoint run (evs : list Event) (p : OutputProcessor) : OutputProcessor * LoopStatus :=
  match evs with
  | [] => (p, Running)
  | ev :: rest =>
      match step ev p with
      | (p1, Exited) => (p1, Exited)
      | (p1, _) => run rest p1
      end
  end.

(** [await result_queue.join()] returns at once exactly when no task
    is unfinished; otherwise it waits for the count to reach zero. *)
Definition join_returns (p : OutputProcessor) : bool :=
  unfinished_tasks p =? 0.

End Processor.

Arguments OutputProcessor S : clear implicits.

End Outputs.

(** ** api/routes.py *)

Module Routes.
Import Models.

Inductive Response (A : Type) : Type :=
| Created (body : A)               (* 201 *)
| NoContent                        (* 204 *)
| Unprocessable (e : exn)          (* 422: the request body failed validation *)
| NotFound.                        (* 404 *)
Arguments Created {A}.
Arguments NoContent {A}.
Arguments Unprocessable {A}.
Arguments NotFound {A}.

(** [POST /targets]. The framework builds [target_in] from the request
    body, which runs the validator of [TargetCreate]; a failure is
    answered before the handler is entered. [fresh] is the value of
    [uuid4()]. *)
Definition add_target (body : TargetCreate) (fresh : UUID) (s : Manager.State)
    : Response Target * Manager.State :=
  match check_interval body with
  | inl e => (Unprocessable e, s)
  | inr target_in =>
      match Target_new target_in fresh with
      | inl e => (Unprocessable e, s)
      | inr target => (Created target, Manager.start_monitoring target s)
      end
  end.

(** [DELETE /targets/{target_id}]. *)
Definition remove_target (target_id : UUID) (s : Manager.State)
    : Response unit * Manager.State :=
  match Manager.get_target target_id s with
  | None => (NotFound, s)
  | Some _ => (NoContent, Manager.stop_monitoring target_id s)
  end.

End Routes.

(** * Properties *)

(** ** Notions used in the statements *)

Module Props.
Import Models.

(** The supervisor's mutating operations, as a caller issues them. *)
Inductive Op : Type :=
| OpStart (target : Target)
| OpStop (target_id : UUID)
| OpStopAll
| OpUpdate (target_id : UUID) (value : Z) (timestamp : Q).

Definition apply_op (op : Op) (s : Manager.State) : Manager.State :=
  match op with
  | OpStart target => Manager.start_monitoring target s
  | OpStop target_id => Manager.stop_monitoring target_id s
  | OpStopAll => Manager.stop_all s
  | OpUpdate target_id value timestamp =>
      Manager.update_target_status target_id value timestamp s
  end.

(** A status update is for a target that has a running task; the other
    operations are not restricted. *)
Definition on_registered (op : Op) (s : Manager.State) : Prop :=
  match op with
  | OpUpdate target_id _ _ => is_Some (Manager.tasks (Manager.mm s) !! target_id)
  | _ => True
  end.

(** The consumer's status updates for a sequence of results. *)
Definition apply_results (rs : list TargetResult) (s : Manager.State)
    : Manager.State :=
  foldl (fun acc r =>
           Manager.update_target_status (target_id r) (value r) (timestamp r) acc)
        s rs.

(** How many of the results are for [tid], and how many of those carry
    a negative value. *)
Definition checks_of (tid : UUID) (rs : list TargetResult) : Z :=
  Z.of_nat (length (filter (fun r => target_id r = tid) rs)).

Definition errors_of (tid : UUID) (rs : list TargetResult) : Z :=
  Z.of_nat (length (filter (fun r => target_id r = tid ∧ value r < 0) rs)).

(** The deadline of turn [k] (counting from 0) on a schedule of period
    [interval] that is anchored at [start]. *)
Definition anchored (start : Q) (interval : Z) (k : nat) : Q :=
  (start + inject_Z (Z.of_nat k) * inject_Z interval)%Q.

(** The seconds a turn of the wrapper takes after its wait: the run of
    the body and, when the body raised and the stop event is not set, the
    pause of one second in the handler. *)
Definition turn_seconds {Env : Type}
    (func : Target -> Env -> list TargetResult * option exn)
    (target : Target) (c : Monitoring.Cycle Env) : Q :=
  (Monitoring.body_elapsed c +
   match snd (func target (Monitoring.body_env c)) with
   | Some _ => if Monitoring.stop_in_handler c then 0 # 1 else 1 # 1
   | None => 0 # 1
   end)%Q.

(** Turns that follow one another without delay: the clock read at the
    start of a turn is [clock], the time at which the turn before it ended
    (for the first turn, the time the wrapper started at), and the body
    takes at most [timeout] seconds. [next_run_time] is the deadline of
    the first of the turns. *)
Fixpoint back_to_back {Env : Type}
    (func : Target -> Env -> list TargetResult * option exn)
    (target : Target) (next_run_time clock : Q)
    (obs : list (Monitoring.Cycle Env)) : Prop :=
  match obs with
  | [] => True
  | c :: rest =>
      (Monitoring.now c == clock)%Q /\
      (0 <= Monitoring.body_elapsed c)%Q /\
      (Monitoring.body_elapsed c <= inject_Z (timeout target))%Q /\
      back_to_back func target
        (next_run_time + inject_Z (interval target))%Q
        (Monitoring.now c
         + Qmax (0 # 1) (next_run_time - Monitoring.now c)
         + turn_seconds func target c)%Q
        rest
  end.

(** Turns that follow one another without delay, each within its bounds:
    the clock read at the start of a turn is [clock], the time at which
    the turn before it ended (for the first turn, the time the wrapper
    started at); the body takes at most [timeout] seconds and the whole
    turn at most [interval]. [next_run_time] is the deadline of the first
    of the turns. *)
Fixpoint paced {Env : Type}
    (func : Target -> Env -> list TargetResult * option exn)
    (target : Target) (next_run_time clock : Q)
    (obs : list (Monitoring.Cycle Env)) : Prop :=
  match obs with
  | [] => True
  | c :: rest =>
      (Monitoring.now c == clock)%Q /\
      (0 <= Monitoring.body_elapsed c)%Q /\
      (Monitoring.body_elapsed c <= inject_Z (timeout target))%Q /\
      (turn_seconds func target c <= inject_Z (interval target))%Q /\
      paced func target
        (next_run_time + inject_Z (interval target))%Q
        (Monitoring.now c
         + Qmax (0 # 1) (next_run_time - Monitoring.now c)
         + turn_seconds func target c)%Q
        rest
  end.

(** The name the consumer resolves for a result. *)
Definition target_name_of (r : TargetResult) (s : Manager.State) : string :=
  match Manager.get_target (target_id r) s with
  | Some t => name t
  | None => "unknown"
  end.

(** Unfinished tasks of the queue that no queued item accounts for. *)
Definition unaccounted {S : Type} (p : Outputs.OutputProcessor S) : Z :=
  Outputs.unfinished_tasks p - Z.of_nat (length (Outputs.queue p)).

(** Sample data for the examples. *)
Definition web : Target := mkTarget (mkTargetCreate "web" 10 2) 7%N.
Definition db : Target := mkTarget (mkTargetCreate "db" 5 5) 9%N.

(** A file sink whose file cannot be opened. *)
Definition broken_file : Outputs.FileSink :=
  Outputs.mkFileSink (Some (OSError "Permission denied")) [].

(** The pipeline of [web] with one result queued and that sink. *)
Definition one_queued : Outputs.OutputProcessor Outputs.FileSink :=
  Outputs.queue_put (mkTargetResult 7%N 42 (0 # 1))
    (Outputs.init (Manager.start_monitoring web Manager.init) broken_file).

End Props.

(** * More of the code *)

(** ** api/routes.py: the statistics endpoint *)

Module Api.
Import Models.

(** [GET /stats]. [now] is [time.time()] and [start_time] the time the
    supervisor was constructed at. *)
Definition get_stats {S : Type} (now start_time : Q) (p : Outputs.OutputProcessor S)
    : SystemStats :=
  let uptime := (now - start_time)%Q in
  mkSystemStats
    (Manager.get_active_count (Outputs.monitor_manager p))
    (Outputs.processed_count p)
    uptime
    (Z.of_nat (length (Outputs.queue p)))
    (Outputs.error_count p).

End Api.

(** ** config/settings.py and [create_output_handler] of outputs.py *)

Module Settings.

(** The four output models of the settings; [type] is fixed by the class. *)
Inductive Output : Type :=
| ConsoleOutput (format : string)
| FileOutput (path format : string) (max_bytes backup_count : Z)
| NatsOutput (url subject format : string)
| PrometheusOutput (url job format : string).

Inductive Value : Type :=
| VStr (s : string)
| VInt (z : Z).

(** The fields of a model, under the names its class declares. *)
Definition fields_of (o : Output) : list (string * Value) :=
  match o with
  | ConsoleOutput f =>
      [("type", VStr "console"); ("format", VStr f)]
  | FileOutput p f m b =>
      [("type", VStr "file"); ("path", VStr p); ("format", VStr f);
       ("max_bytes", VInt m); ("backup_count", VInt b)]
  | NatsOutput u s f =>
      [("type", VStr "nats"); ("url", VStr u); ("subject", VStr s);
       ("format", VStr f)]
  | PrometheusOutput u j f =>
      [("type", VStr "prometheus"); ("url", VStr u); ("job", VStr j);
       ("format", VStr f)]
  end%string.

Inductive AttributeError : Type :=
| NoAttribute (attr : string).

Fixpoint assoc (attr : string) (fs : list (string * Value)) : option Value :=
  match fs with
  | [] => None
  | (k, v) :: rest => if String.eqb k attr then Some v else assoc attr rest
  end.

(** [obj.attr] for a data attribute of a model: the field of that name,
    or [AttributeError] when the class declares none. *)
Definition getattr (o : Output) (attr : string) : AttributeError + Value :=
  match assoc attr (fields_of o) with
  | Some v => inr v
  | None => inl (NoAttribute attr)
  end.

(** Python truth of a field value. *)
Definition truthy (v : Value) : bool :=
  match v with
  | VStr s => negb (String.eqb s "")
  | VInt z => negb (z =? 0)
  end.

Definition is_str (v : Value) (s : string) : bool :=
  match v with
  | VStr s' => String.eqb s' s
  | VInt _ => false
  end.

(** The handler objects [create_output_handler] can build. *)
Inductive Handler : Type :=
| ConsoleHandler
| FileHandler (file_path format_string max_bytes backup_count : Value).

(** [create_output_handler()], as a function of [settings.output]. *)
Definition create_output_handler (output_config : Output)
    : AttributeError + Handler :=
  match getattr output_config "type" with
  | inl e => inl e
  | inr type =>
      if is_str type "console" then inr ConsoleHandler
      else if is_str type "file" then
        match getattr output_config "file_path" with
        | inl e => inl e
        | inr file_path =>
            if negb (truthy file_path) then inr ConsoleHandler
            else
              match getattr output_config "file_path",
                    getattr output_config "file_format",
                    getattr output_config "file_max_bytes",
                    getattr output_config "file_backup_count" with
              | inr p, inr f, inr m, inr b => inr (FileHandler p f m b)
              | inl e, _, _, _ => inl e
              | _, inl e, _, _ => inl e
              | _, _, inl e, _ => inl e
              | _, _, _, inl e => inl e
              end
        end
      else inr ConsoleHandler
  end.

End Settings.

(** ** outputs.py: [FileOutputHandler], the files it keeps

    The output file and its numbered backups. A file is the list of its
    lines; the backup with suffix [.i] is kept under the key [i]. The
    output file's own suffix is taken not to be a number, so that it is
    none of its backups. Errors of the file system during the rotation
    are left out. *)

Module Rotation.

Record Files : Type := mkFiles {
  current : option (list string);
  backups : gmap Z (list string)
}.

(** [stat().st_size]: every line is followed by a newline. *)
Definition st_size (content : list string) : Z :=
  foldr (fun line acc => Z.of_nat (String.length line) + 1 + acc) 0 content.

(** [n, n-1, ..., 1] *)
Fixpoint count_down (n : nat) : list Z :=
  match n with
  | O => []
  | S k => Z.of_nat (S k) :: count_down k
  end.

(** [range(hi, 0, -1)] *)
Definition range_down (hi : Z) : list Z := count_down (Z.to_nat hi).

(** The body of the loop: [.i] replaces [.(i+1)] when [.i] exists. *)
Definition rotate_step (fs : Files) (i : Z) : Files :=
  match backups fs !! i with
  | Some content => mkFiles (current fs) (<[i + 1 := content]> (delete i (backups fs)))
  | None => fs
  end.

(** [FileOutputHandler._rotate_file] *)
Definition rotate_file (max_bytes backup_count : Z) (fs : Files) : Files :=
  match current fs with
  | None => fs
  | Some content =>
      if max_bytes <=? st_size content then
        let fs1 := foldl rotate_step fs (range_down (backup_count - 1)) in
        mkFiles None (<[1 := content]> (backups fs1))
      else fs
  end.

(** [with self.file_path.open("a") as f: f.write(line + "\n")] *)
Definition append_line (line : string) (fs : Files) : Files :=
  mkFiles (Some (default [] (current fs) ++ [line])) (backups fs).

(** What the calls of [handle] after the rotation do: [formatted] is the
    line that [format_string.format(...)] returns, or what it raises (for
    a field that the call does not supply); [open_error] is what opening
    the file raises, if anything. A write that fails part-way is left
    out. *)
Record WriteEnv : Type := mkWriteEnv {
  formatted : Models.exn + string;
  open_error : option Models.exn
}.

(** [FileOutputHandler.handle]: the rotation, then the line is formatted,
    then it is appended. The value is the files the call leaves and the
    exception it raises, if any. *)
Definition handle (max_bytes backup_count : Z) (env : WriteEnv) (fs : Files)
    : Files * option Models.exn :=
  let fs1 := rotate_file max_bytes backup_count fs in
  match formatted env with
  | inl e => (fs1, Some e)
  | inr line =>
      match open_error env with
      | Some e => (fs1, Some e)
      | None => (append_line line fs1, None)
      end
  end.

End Rotation.

(** ** outputs.py: a turn of the consumer, step by step

    Between the loop test and the processing of an item the consumer is
    suspended: in [asyncio.wait], and again while it waits for the task it
    cancelled. [get_task] takes the item off the queue in a step of its
    own, and anything can run in between: a producer, the supervisor, the
    shutdown sequence, a request for the statistics. The steps are events
    here, in any order; a step that cannot be taken in a state leaves it
    as it is. [handle] is one step: the handlers of this repository never
    suspend. *)

Module Consumer.
Import Models Outputs.

(** Where the consumer is. *)
Inductive Control : Type :=
| AtTest                      (* at the [while] test *)
| Suspended                   (* waiting; [get_task] holds no item *)
| Holding (r : TargetResult)  (* [get_task] has taken [r]; the consumer has not resumed *)
| Left.                       (* out of the loop *)

Section Steps.
Context {S : Type} `{OutputHandler S}.

Record Consumer : Type := mkConsumer {
  proc : OutputProcessor S;
  control : Control
}.

(** The loop test, [QUEUE_SIZE.set(self.queue.qsize())], the two tasks
    and [await asyncio.wait(...)]. *)
Definition enter (c : Consumer) : Consumer :=
  match control c with
  | AtTest =>
      if stop_event (proc c) then mkConsumer (proc c) Left
      else
        mkConsumer
          (with_metrics
             (Metrics.queue_size_set (Z.of_nat (length (queue (proc c)))))
             (proc c))
          Suspended
  | _ => c
  end.

(** A step of [get_task]: [self.queue.get()] takes the oldest item when
    there is one. *)
Definition take (c : Consumer) : Consumer :=
  match control c, queue (proc c) with
  | Suspended, r :: _ => mkConsumer (queue_pop (proc c)) (Holding r)
  | _, _ => c
  end.

(** The consumer resumes after the wait: [if self.stop_event.is_set():
    break], which drops the item that was taken; otherwise the rest of the
    [try] block and the [except] clause. Without an item it resumes only
    for the stop event. *)
Definition resume (f : Faults) (c : Consumer) : Consumer :=
  match control c with
  | Holding r =>
      if stop_event (proc c) then mkConsumer (proc c) Left
      else
        match process_item f r (proc c) with
        | (p2, inr _) => mkConsumer p2 AtTest
        | (p2, inl _) => mkConsumer (on_error p2) AtTest
        end
  | Suspended =>
      if stop_event (proc c) then mkConsumer (proc c) Left else c
  | _ => c
  end.

Definition on_proc (g : OutputProcessor S -> OutputProcessor S) (c : Consumer)
    : Consumer :=
  mkConsumer (g (proc c)) (control c).

Inductive Event : Type :=
| Put (r : TargetResult)          (* a scheduler: [await queue.put(result_data)] *)
| Start (target : Target)         (* the API: [start_monitoring] *)
| Stop (target_id : UUID)         (* the API: [stop_monitoring] *)
| StopAll                         (* shutdown: [stop_all] *)
| SetStop                         (* shutdown: [stop_event.set()] *)
| Enter
| Take
| Resume (f : Faults).

Definition step (ev : Event) (c : Consumer) : Consumer :=
  match ev with
  | Put r => on_proc (queue_put r) c
  | Start target => on_proc (with_manager (Manager.start_monitoring target)) c
  | Stop target_id => on_proc (with_manager (Manager.stop_monitoring target_id)) c
  | StopAll => on_proc (with_manager Manager.stop_all) c
  | SetStop => on_proc set_stop_event c
  | Enter => enter c
  | Take => take c
  | Resume f => resume f c
  end.

Definition run (evs : list Event) (c : Consumer) : Consumer :=
  foldl (fun acc ev => step ev acc) c evs.

(** The item that has left the queue and is not yet processed. *)
Definition held (c : Consumer) : Z :=
  match control c with
  | Holding _ => 1
  | _ => 0
  end.

(** The unfinished tasks of the queue that stand for no item still to be
    processed: items that were taken and never marked done. *)
Definition lost (c : Consumer) : Z :=
  unfinished_tasks (proc c) - Z.of_nat (length (queue (proc c))) - held c.

(** The events in which no library call of the consumer raises. *)
Definition library_ok (ev : Event) : Prop :=
  match ev with
  | Resume f => f = no_faults
  | _ => True
  end.

Definition is_put (ev : Event) : bool :=
  match ev with
  | Put _ => true
  | _ => false
  end.

(** The number of [put] calls among the events. *)
Definition puts (evs : list Event) : Z :=
  Z.of_nat (length (List.filter is_put evs)).

End Steps.

Arguments Consumer S : clear implicits.

End Consumer.

(** ** Further notions used in the statements *)

Module Notions.
Import Models.

(** The state after a sequence of supervisor operations. *)
Definition run_ops (ops : list Props.Op) (s : Manager.State) : Manager.State :=
  foldl (fun acc op => Props.apply_op op acc) s ops.

(** How tasks, stop events and definitions are tied together: the task
    and the stop event made by one [start_monitoring] have the same index;
    the task registered for an id was created for the target stored under
    that id, and its stop event is the one registered for the id; a stop
    event is unset exactly while its task is registered. *)
Definition wired (s : Manager.State) : Prop :=
  length (Manager.events s) = length (Manager.created_tasks s) /\
  (forall i t ev, Manager.created_tasks s !! i = Some (t, ev) -> ev = i) /\
  (forall tid i,
     Manager.tasks (Manager.mm s) !! tid = Some i ->
     Manager.stop_events (Manager.mm s) !! tid = Some i /\
     exists t, Manager.created_tasks s !! i = Some (t, i) /\
               id t = tid /\ Manager.targets (Manager.mm s) !! tid = Some t) /\
  (forall i b,
     Manager.events s !! i = Some b ->
     (b = false <-> exists tid, Manager.tasks (Manager.mm s) !! tid = Some i)).

(** A turn of the scheduler that sees the stop signal. *)
Definition observes_stop {Env : Type} (c : Monitoring.Cycle Env) : bool :=
  Monitoring.stop_at_test c || Monitoring.stop_after_wait c.

(** The turns before the first one that sees the stop signal. *)
Fixpoint before_stop {Env : Type} (obs : list (Monitoring.Cycle Env))
    : list (Monitoring.Cycle Env) :=
  match obs with
  | [] => []
  | c :: rest => if observes_stop c then [] else c :: before_stop rest
  end.

(** The values the poll function returned in the given turns. *)
Definition returned_values (obs : list (Monitoring.Cycle (exn + Z))) : list Z :=
  omap (fun c => match Monitoring.body_env c with
                 | inr v => Some v
                 | inl _ => None
                 end) obs.

(** A sink whose [handle] never raises. *)
Definition never_raises (S : Type) `{Outputs.OutputHandler S} : Prop :=
  forall r nm (h : S), snd (Outputs.handle r nm h) = None.

End Notions.

(** ** The supervisor *)

Section ManagerFacts.
Import Models Manager Props.

Lemma update_target_status_unfold target_id value ts s :
  update_target_status target_id value ts s =
  mkState
    (mkMonitorManager (tasks (mm s)) (stop_events (mm s)) (targets (mm s))
       (<[target_id :=
            record_check value ts
              (default TargetStatus_new (target_statuses (mm s) !! target_id))]>
          (target_statuses (mm s))))
    (events s) (created_tasks s) (metrics s).
Proof.
  unfold update_target_status.
  destruct (target_statuses (mm s) !! target_id) as [st|] eqn:Hst; cbn.
  - rewrite Hst. reflexivity.
  - rewrite lookup_insert_eq, insert_insert_eq. reflexivity.
Qed.

Lemma stop_monitoring_unfold target_id s :
  is_Some (tasks (mm s) !! target_id) ->
  stop_monitoring target_id s =
  mkState
    (mkMonitorManager (delete target_id (tasks (mm s)))
       (delete target_id (stop_events (mm s)))
       (delete target_id (targets (mm s)))
       (delete target_id (target_statuses (mm s))))
    (match stop_events (mm s) !! target_id with
     | Some ev => <[ev := true]> (events s)
     | None => events s
     end)
    (created_tasks s)
    (Metrics.active_targets_add (-1) (metrics s)).
Proof.
  intros [tk Htk]. unfold stop_monitoring. rewrite Htk.
  destruct (stop_events (mm s) !! target_id) eqn:He;
    destruct (targets (mm s) !! target_id) eqn:Ht;
    destruct (target_statuses (mm s) !! target_id) eqn:Hs;
    rewrite ?(delete_id _ _ He), ?(delete_id _ _ Ht), ?(delete_id _ _ Hs);
    reflexivity.
Qed.

Lemma stop_monitoring_absent target_id s :
  tasks (mm s) !! target_id = None -> stop_monitoring target_id s = s.
Proof. intros Hn. unfold stop_monitoring. rewrite Hn. reflexivity. Qed.

Lemma start_monitoring_present target s :
  is_Some (tasks (mm s) !! id target) -> start_monitoring target s = s.
Proof. intros [tk Htk]. unfold start_monitoring. rewrite Htk. reflexivity. Qed.

Lemma start_monitoring_registers target s :
  is_Some (tasks (mm (start_monitoring target s)) !! id target).
Proof.
  unfold start_monitoring.
  destruct (tasks (mm s) !! id target) eqn:Htk; cbn.
  - rewrite Htk. eauto.
  - rewrite lookup_insert_eq. eauto.
Qed.

Lemma lockstep_init : lockstep init.
Proof. unfold lockstep, init; cbn. rewrite !dom_empty_L. auto. Qed.

Lemma lockstep_registered s : lockstep s -> registered_have_status s.
Proof.
  intros (Ht & Hs & He). unfold registered_have_status.
  rewrite Ht, He, Hs. auto.
Qed.

(** *** Each operation and the key sets *)

Lemma start_monitoring_lockstep target s :
  lockstep s -> lockstep (start_monitoring target s).
Proof.
  intros (Ht & Hs & He). unfold start_monitoring.
  destruct (tasks (mm s) !! id target); [by repeat split|].
  unfold lockstep; cbn. rewrite !dom_insert_L, Ht, Hs, He. auto.
Qed.

Lemma start_monitoring_registered target s :
  registered_have_status s -> registered_have_status (start_monitoring target s).
Proof.
  intros (Ht & He & Hs). unfold start_monitoring.
  destruct (tasks (mm s) !! id target); [by repeat split|].
  unfold registered_have_status; cbn. rewrite !dom_insert_L, Ht, He.
  split; [reflexivity|]. split; [reflexivity|].
  apply union_mono_l, Hs.
Qed.

Lemma stop_monitoring_lockstep target_id s :
  lockstep s -> lockstep (stop_monitoring target_id s).
Proof.
  intros Hl. destruct (tasks (mm s) !! target_id) eqn:Htk.
  - rewrite stop_monitoring_unfold by eauto.
    destruct Hl as (Ht & Hs & He).
    unfold lockstep; cbn. rewrite !dom_delete_L, Ht, Hs, He. auto.
  - rewrite stop_monitoring_absent; assumption.
Qed.

Lemma stop_monitoring_registered target_id s :
  registered_have_status s -> registered_have_status (stop_monitoring target_id s).
Proof.
  intros Hl. destruct (tasks (mm s) !! target_id) eqn:Htk.
  - rewrite stop_monitoring_unfold by eauto.
    destruct Hl as (Ht & He & Hs).
    unfold registered_have_status; cbn. rewrite !dom_delete_L, Ht, He.
    split; [reflexivity|]. split; [reflexivity|].
    apply difference_mono_r, Hs.
  - rewrite stop_monitoring_absent; assumption.
Qed.

(** The loop of [stop_all] keeps whatever each single stop keeps, for
    any snapshot of ids, in any order. *)
Lemma stop_all_ids_preserves (P : State -> Prop) :
  (forall target_id s, P s -> P (stop_monitoring target_id s)) ->
  forall ids s, P s -> P (stop_all_ids ids s).
Proof.
  intros Hstep ids. unfold stop_all_ids.
  induction ids as [|i ids IH]; intros s Hs; cbn; [assumption|].
  apply IH, Hstep, Hs.
Qed.

(** *** The order of the stops does not matter

    A dictionary is iterated in insertion order, a [gmap] in the order of
    its keys; [stop_all] ends in the same state for both. *)

Lemma stop_monitoring_other_task a b s :
  a <> b -> tasks (mm (stop_monitoring b s)) !! a = tasks (mm s) !! a.
Proof.
  intros Hne. destruct (tasks (mm s) !! b) eqn:Hb.
  - rewrite stop_monitoring_unfold by eauto. cbn.
    apply lookup_delete_ne. congruence.
  - rewrite stop_monitoring_absent by assumption. reflexivity.
Qed.

Lemma stop_monitoring_comm a b s :
  stop_monitoring a (stop_monitoring b s) = stop_monitoring b (stop_monitoring a s).
Proof.
  destruct (decide (a = b)) as [->|Hne]; [reflexivity|].
  destruct (tasks (mm s) !! a) eqn:Ha.
  2:{ rewrite (stop_monitoring_absent a s Ha).
      apply stop_monitoring_absent.
      rewrite stop_monitoring_other_task; assumption. }
  destruct (tasks (mm s) !! b) eqn:Hb.
  2:{ rewrite (stop_monitoring_absent b s Hb). symmetry.
      apply stop_monitoring_absent.
      rewrite stop_monitoring_other_task; [assumption | congruence]. }
  rewrite (stop_monitoring_unfold a (stop_monitoring b s))
    by (rewrite stop_monitoring_other_task; eauto).
  rewrite (stop_monitoring_unfold b (stop_monitoring a s))
    by (rewrite stop_monitoring_other_task; [eauto | congruence]).
  rewrite (stop_monitoring_unfold b s), (stop_monitoring_unfold a s) by eauto.
  cbn. rewrite !(lookup_delete_ne (stop_events (mm s))) by congruence.
  f_equal.
  - f_equal; apply delete_delete.
  - destruct (stop_events (mm s) !! a) as [i|], (stop_events (mm s) !! b) as [j|];
      try reflexivity.
    destruct (decide (i = j)) as [->|Hij]; [reflexivity|].
    apply list_insert_insert_ne. congruence.
Qed.

Lemma stop_all_ids_perm ids ids' s :
  ids ≡ₚ ids' -> stop_all_ids ids s = stop_all_ids ids' s.
Proof.
  unfold stop_all_ids. intros Hp. revert s.
  induction Hp as [|x l l' _ IH|x y l|l l' l'' _ IH1 _ IH2]; intros s; cbn.
  - reflexivity.
  - apply IH.
  - rewrite stop_monitoring_comm. reflexivity.
  - rewrite IH1. apply IH2.
Qed.

Lemma stop_all_any_order keys s :
  keys ≡ₚ map fst (map_to_list (tasks (mm s))) ->
  stop_all s = stop_all_ids keys s.
Proof. intros Hp. unfold stop_all. symmetry. by apply stop_all_ids_perm. Qed.

Lemma update_target_status_registered target_id value ts s :
  registered_have_status s ->
  registered_have_status (update_target_status target_id value ts s).
Proof.
  intros (Ht & He & Hs). rewrite update_target_status_unfold.
  unfold registered_have_status; cbn. rewrite dom_insert_L.
  split; [assumption|]. split; [assumption|].
  etrans; [exact Hs | apply union_subseteq_r].
Qed.

Lemma update_target_status_lockstep target_id value ts s :
  lockstep s -> is_Some (tasks (mm s) !! target_id) ->
  lockstep (update_target_status target_id value ts s).
Proof.
  intros (Ht & Hs & He) Hreg. rewrite update_target_status_unfold.
  unfold lockstep; cbn. rewrite dom_insert_L.
  apply elem_of_dom in Hreg.
  split; [assumption|]. split; [|assumption].
  rewrite Hs. apply subseteq_union_1_L, singleton_subseteq_l, Hreg.
Qed.

End ManagerFacts.

(** ** Claims about the supervisor *)

Section ManagerClaims.
Import Models Manager Props.

(** C1, as stated, fails: on the empty registry, where id 7 has neither
    a task nor a definition, [update_target_status] does change the
    state: it creates a status entry for the id. *)
Lemma update_target_status_unregistered_not_noop :
  tasks (mm init) !! 7%N = None /\
  targets (mm init) !! 7%N = None /\
  update_target_status 7%N 5 (0 # 1) init <> init /\
  target_statuses (mm (update_target_status 7%N 5 (0 # 1) init)) !! 7%N
    = Some (mkTargetStatus (Some (0 # 1)) (Some 5) 1 0).
Proof.
  split; [reflexivity|]. split; [reflexivity|]. split.
  - intros Heq.
    apply (f_equal (fun s => target_statuses (mm s) !! 7%N)) in Heq.
    vm_compute in Heq. discriminate Heq.
  - vm_compute. reflexivity.
Qed.

(** C1, amended: for an id that is not registered, [update_target_status]
    raises nothing (it is a total function of the state) and leaves the
    tasks, the stop events, the definitions, the active count and the
    metrics as they were; it is not a no-op on the status map, where it
    stores for the id the recorded check, on the status found there or
    on a new one. The id stays unknown to [get_target] and
    [get_target_with_status]. *)
Theorem update_target_status_unregistered
    (target_id : UUID) (value : Z) (ts : Q) (s : State)
    (Htask : tasks (mm s) !! target_id = None)
    (Htarget : targets (mm s) !! target_id = None) :
  let s' := update_target_status target_id value ts s in
  tasks (mm s') = tasks (mm s) /\
  stop_events (mm s') = stop_events (mm s) /\
  targets (mm s') = targets (mm s) /\
  events s' = events s /\
  created_tasks s' = created_tasks s /\
  metrics s' = metrics s /\
  get_active_count s' = get_active_count s /\
  target_statuses (mm s') =
    <[target_id :=
        record_check value ts
          (default TargetStatus_new (target_statuses (mm s) !! target_id))]>
      (target_statuses (mm s)) /\
  get_target target_id s' = None /\
  get_target_with_status target_id s' = None.
Proof.
  cbv zeta. rewrite update_target_status_unfold.
  unfold get_active_count, get_target, get_target_with_status; cbn.
  rewrite Htarget. repeat split; reflexivity.
Qed.

Lemma update_target_status_unregistered_witness :
  tasks (mm init) !! 7%N = None /\
  targets (mm init) !! 7%N = None /\
  target_statuses (mm (update_target_status 7%N (-1) (0 # 1) init)) =
    <[7%N := record_check (-1) (0 # 1) TargetStatus_new]> ∅.
Proof.
  split; [reflexivity|]. split; [reflexivity|].
  apply (update_target_status_unregistered 7%N (-1) (0 # 1) init);
    reflexivity.
Defined.

(** C2, as stated, fails: the empty registry has its four key sets
    identical, and one status update for an unknown id leaves a status
    without a definition or a task. *)
Lemma update_target_status_breaks_lockstep :
  lockstep init /\ ~ lockstep (update_target_status 7%N 5 (0 # 1) init).
Proof.
  split; [apply lockstep_init|].
  intros (_ & Hs & _).
  assert (Hin : 7%N ∈ dom (tasks (mm (update_target_status 7%N 5 (0 # 1) init)))).
  { rewrite <- Hs. apply elem_of_dom. vm_compute. eauto. }
  apply elem_of_dom in Hin. destruct Hin as [tk Htk].
  vm_compute in Htk. discriminate Htk.
Qed.

(** C2, amended: every supervisor operation keeps the definitions, the
    tasks and the stop events on the same ids and keeps a status for
    each of them; [start_monitoring], [stop_monitoring], [stop_all], and
    [update_target_status] for an id that has a task, keep all four key
    sets identical. *)
Theorem supervisor_operations_key_sets (op : Op) (s : State)
    (Hinv : registered_have_status s) :
  registered_have_status (apply_op op s) /\
  (lockstep s -> on_registered op s -> lockstep (apply_op op s)).
Proof.
  destruct op as [target | target_id | | target_id value ts]; cbn.
  - split; [by apply start_monitoring_registered|].
    intros Hl _. by apply start_monitoring_lockstep.
  - split; [by apply stop_monitoring_registered|].
    intros Hl _. by apply stop_monitoring_lockstep.
  - split.
    + unfold stop_all.
      apply (stop_all_ids_preserves registered_have_status); [|assumption].
      intros; by apply stop_monitoring_registered.
    + intros Hl _. unfold stop_all.
      apply (stop_all_ids_preserves lockstep); [|assumption].
      intros; by apply stop_monitoring_lockstep.
  - split; [by apply update_target_status_registered|].
    intros Hl Hreg. by apply update_target_status_lockstep.
Qed.

Lemma supervisor_operations_key_sets_witness :
  registered_have_status (start_monitoring web init) /\
  registered_have_status
    (update_target_status 9%N 5 (0 # 1) (start_monitoring web init)) /\
  lockstep (update_target_status 7%N 5 (0 # 1) (start_monitoring web init)) /\
  lockstep (stop_all (start_monitoring web init)).
Proof.
  assert (Hl : lockstep (start_monitoring web init)).
  { apply start_monitoring_lockstep, lockstep_init. }
  assert (Hr : registered_have_status (start_monitoring web init)).
  { apply lockstep_registered, Hl. }
  split; [exact Hr|]. split; [|split].
  - exact (proj1 (supervisor_operations_key_sets
                    (OpUpdate 9%N 5 (0 # 1)) _ Hr)).
  - apply (proj2 (supervisor_operations_key_sets
                    (OpUpdate 7%N 5 (0 # 1)) _ Hr)); [exact Hl|].
    cbn. vm_compute. eauto.
  - exact (proj2 (supervisor_operations_key_sets OpStopAll _ Hr) Hl I).
Defined.

(** *** Counting checks and errors *)

Lemma record_check_fields value ts st :
  record_check value ts st =
  mkTargetStatus (Some ts) (Some value) (check_count st + 1)
    (Models.error_count st + (if value <? 0 then 1 else 0)).
Proof.
  unfold record_check. destruct (value <? 0); f_equal; lia.
Qed.

Lemma apply_results_counts tid rs :
  forall s st,
    target_statuses (mm s) !! tid = Some st ->
    exists st',
      target_statuses (mm (apply_results rs s)) !! tid = Some st' /\
      check_count st' = check_count st + checks_of tid rs /\
      Models.error_count st' = Models.error_count st + errors_of tid rs.
Proof.
  unfold apply_results, checks_of, errors_of.
  induction rs as [|r rs IH]; intros s st Hst; cbn [foldl].
  - exists st. cbn. split; [assumption|]. lia.
  - destruct (decide (target_id r = tid)) as [Heq|Hne].
    + destruct (IH (update_target_status (target_id r) (value r) (timestamp r) s)
                  (record_check (value r) (timestamp r) st))
        as (st' & Hst' & Hc & He).
      { rewrite update_target_status_unfold; cbn.
        rewrite Heq, lookup_insert_eq, Hst. reflexivity. }
      exists st'. split; [exact Hst'|].
      rewrite Hc, He, record_check_fields; cbn [check_count Models.error_count].
      rewrite (filter_cons_True (fun r => target_id r = tid)) by assumption.
      destruct (Z.ltb_spec (value r) 0).
      * rewrite (filter_cons_True (fun r => target_id r = tid ∧ value r < 0))
          by (split; assumption).
        cbn [length]. lia.
      * rewrite (filter_cons_False (fun r => target_id r = tid ∧ value r < 0))
          by (intros [_ ?]; lia).
        cbn [length]. lia.
    + destruct (IH (update_target_status (target_id r) (value r) (timestamp r) s) st)
        as (st' & Hst' & Hc & He).
      { rewrite update_target_status_unfold; cbn.
        rewrite lookup_insert_ne by assumption. exact Hst. }
      exists st'. split; [exact Hst'|].
      rewrite Hc, He.
      rewrite (filter_cons_False (fun r => target_id r = tid)) by assumption.
      rewrite (filter_cons_False (fun r => target_id r = tid ∧ value r < 0))
        by (intros [? _]; contradiction).
      lia.
Qed.

Lemma errors_le_checks tid rs : 0 <= errors_of tid rs <= checks_of tid rs.
Proof.
  unfold errors_of, checks_of. split; [lia|].
  apply inj_le.
  induction rs as [|r rs IH]; [reflexivity|].
  destruct (decide (target_id r = tid)) as [Heq|Hne].
  - rewrite (filter_cons_True (fun r => target_id r = tid)) by assumption.
    destruct (decide (value r < 0)).
    + rewrite (filter_cons_True (fun r => target_id r = tid ∧ value r < 0))
        by (split; assumption).
      cbn [length]. lia.
    + rewrite (filter_cons_False (fun r => target_id r = tid ∧ value r < 0))
        by (intros [_ ?]; contradiction).
      cbn [length]. lia.
  - rewrite (filter_cons_False (fun r => target_id r = tid)) by assumption.
    rewrite (filter_cons_False (fun r => target_id r = tid ∧ value r < 0))
      by (intros [? _]; contradiction).
    exact IH.
Qed.

(** C5: for a target that has a status, one call of
    [update_target_status] adds 1 to [check_count], stores the timestamp
    and the value, and adds 1 to [error_count] exactly when the value is
    negative. Over any sequence of processed results, of which [N] are
    for the target and [E] of those are negative, [check_count] grows by
    [N] and [error_count] by [E], with [E <= N]; from the new status of
    [start_monitoring] they are [N] and [E]. *)
Theorem update_target_status_counts
    (tid : UUID) (s : State) (st : TargetStatus) (rs : list TargetResult)
    (Hst : target_statuses (mm s) !! tid = Some st) :
  (forall value ts,
     target_statuses (mm (update_target_status tid value ts s)) !! tid =
     Some (mkTargetStatus (Some ts) (Some value) (check_count st + 1)
             (if value <? 0 then Models.error_count st + 1
              else Models.error_count st))) /\
  (exists st',
     target_statuses (mm (apply_results rs s)) !! tid = Some st' /\
     check_count st' = check_count st + checks_of tid rs /\
     Models.error_count st' = Models.error_count st + errors_of tid rs /\
     0 <= errors_of tid rs <= checks_of tid rs /\
     (st = TargetStatus_new ->
      check_count st' = checks_of tid rs /\
      Models.error_count st' = errors_of tid rs /\
      Models.error_count st' <= check_count st')).
Proof.
  split.
  - intros value ts. rewrite update_target_status_unfold; cbn.
    rewrite lookup_insert_eq, Hst. reflexivity.
  - destruct (apply_results_counts tid rs s st Hst) as (st' & Hst' & Hc & He).
    pose proof (errors_le_checks tid rs) as Hle.
    exists st'. split; [exact Hst'|]. split; [exact Hc|]. split; [exact He|].
    split; [exact Hle|].
    intros ->. cbn in Hc, He. lia.
Qed.

Lemma update_target_status_counts_witness :
  target_statuses (mm (start_monitoring web init)) !! 7%N = Some TargetStatus_new /\
  exists st',
    target_statuses
      (mm (apply_results
             [mkTargetResult 7%N 3 (0 # 1); mkTargetResult 7%N (-1) (0 # 1);
              mkTargetResult 9%N (-1) (0 # 1)]
             (start_monitoring web init))) !! 7%N = Some st' /\
    check_count st' = 2 /\ Models.error_count st' = 1.
Proof.
  split; [reflexivity|].
  destruct (update_target_status_counts 7%N (start_monitoring web init)
              TargetStatus_new
              [mkTargetResult 7%N 3 (0 # 1); mkTargetResult 7%N (-1) (0 # 1);
               mkTargetResult 9%N (-1) (0 # 1)] eq_refl)
    as (_ & st' & Hst' & _ & _ & _ & Hnew).
  exists st'. split; [exact Hst'|].
  destruct (Hnew eq_refl) as (Hc & He & _).
  split; [exact Hc | exact He].
Defined.

(** C9: when the id of the target already has a task, [start_monitoring]
    returns the state it was given: no dictionary changes, no second task
    is created, the status is not reset, and the active count stays what
    it was; started twice on a state where the count was [n], the count
    is what one start made it. *)
Theorem start_monitoring_idempotent (target : Target) (s : State)
    (Hreg : is_Some (tasks (mm s) !! id target)) :
  start_monitoring target s = s /\
  get_active_count (start_monitoring target s) = get_active_count s /\
  (get_active_count s = 1 -> get_active_count (start_monitoring target s) = 1).
Proof.
  rewrite (start_monitoring_present target s Hreg). auto.
Qed.

Lemma start_monitoring_idempotent_witness :
  is_Some (tasks (mm (start_monitoring web init)) !! id web) /\
  start_monitoring web (start_monitoring web init) = start_monitoring web init /\
  get_active_count (start_monitoring web (start_monitoring web init)) = 1.
Proof.
  assert (Hreg : is_Some (tasks (mm (start_monitoring web init)) !! id web)).
  { apply start_monitoring_registers. }
  split; [exact Hreg|].
  destruct (start_monitoring_idempotent web (start_monitoring web init) Hreg)
    as (Heq & _ & H1).
  split; [exact Heq|]. apply H1. reflexivity.
Defined.

End ManagerClaims.

(** ** Creation requests *)

Section RoutesClaims.
Import Models Manager Routes Props.

(** C8: a creation request whose interval is below its timeout is
    answered with the validation error and the supervisor's state is the
    one before the request, so the target is in no registry map; a
    request with [interval >= timeout >= 1] is answered with the created
    target, which [start_monitoring] has registered under the new id. *)
Theorem add_target_validation (body : TargetCreate) (fresh : UUID) (s : State) :
  (interval body < timeout body ->
   add_target body fresh s =
     (Unprocessable (ValueError "Interval must be equal to or greater than timeout"),
      s)) /\
  (1 <= timeout body <= interval body ->
   add_target body fresh s =
     (Created (mkTarget body fresh), start_monitoring (mkTarget body fresh) s) /\
   (tasks (mm s) !! fresh = None ->
    let s' := snd (add_target body fresh s) in
    get_target fresh s' = Some (mkTarget body fresh) /\
    target_statuses (mm s') !! fresh = Some TargetStatus_new /\
    is_Some (tasks (mm s') !! fresh) /\
    is_Some (stop_events (mm s') !! fresh))).
Proof.
  unfold add_target, Target_new, check_interval. split.
  - intros Hlt. apply Z.ltb_lt in Hlt. rewrite Hlt. reflexivity.
  - intros [_ Hge]. apply Z.ltb_ge in Hge. rewrite Hge. cbn.
    rewrite Hge. split; [reflexivity|].
    intros Hfresh. unfold start_monitoring, get_target; cbn.
    rewrite Hfresh; cbn. rewrite !lookup_insert_eq. eauto.
Qed.

Lemma add_target_validation_witness :
  add_target (mkTargetCreate "slow" 1 2) 3%N init =
    (Unprocessable (ValueError "Interval must be equal to or greater than timeout"),
     init) /\
  fst (add_target (mkTargetCreate "db" 5 5) 9%N init) = Created db /\
  get_target 9%N (snd (add_target (mkTargetCreate "db" 5 5) 9%N init)) = Some db.
Proof.
  split; [|split].
  - apply (proj1 (add_target_validation (mkTargetCreate "slow" 1 2) 3%N init)).
    cbn. lia.
  - destruct (proj2 (add_target_validation (mkTargetCreate "db" 5 5) 9%N init))
      as [Heq _]; [cbn; lia|].
    rewrite Heq. reflexivity.
  - destruct (proj2 (add_target_validation (mkTargetCreate "db" 5 5) 9%N init))
      as [_ Hreg]; [cbn; lia|].
    apply Hreg. reflexivity.
Defined.

End RoutesClaims.

(** ** The mock poll function *)

Section PollClaims.
Import Models Monitoring Props.

Lemma randint_range a b draw v :
  randint a b draw = inr v -> a <= v <= b.
Proof.
  unfold randint. destruct (Z.ltb_spec b a) as [Hlt|Hge]; [discriminate|].
  intros [= <-].
  pose proof (Z.mod_pos_bound draw (b - a + 1)). lia.
Qed.

(** The range of the sleep is not empty only for a positive timeout. *)
Lemma round_1_2_positive t : 1 <= round_1_2 t -> 1 <= t.
Proof.
  unfold round_1_2. intros H.
  destruct (Z.le_gt_cases 1 t) as [Hle|Hgt]; [assumption|].
  assert (Hdiv : (12 * t + 5) / 10 <= 5 / 10)
    by (apply Z.div_le_mono; lia).
  change (5 / 10) with 0 in Hdiv. lia.
Qed.

Example poll_in_time : poll web 0 42 = (42, 1).
Proof. reflexivity. Qed.

Example poll_too_slow : poll web 1 42 = (-1, 2).
Proof. reflexivity. Qed.

Example poll_bad_range :
  poll (mkTarget (mkTargetCreate "zero" 0 0) 1%N) 0 42 = (-1, 0).
Proof. reflexivity. Qed.

(** C6: [poll] is a total function to integers, so nothing is raised
    past it. When the guarded block completes, the value is its reading,
    between 0 and 100, obtained in less than [timeout] seconds; when the
    block raises ([TimeoutError] or anything else), the value is the
    sentinel -1, and the attempt took no more than [timeout] seconds. *)
Theorem poll_reading_or_sentinel (target : Target) (draw_sleep draw_value : Z) :
  match poll_block target draw_sleep draw_value,
        poll target draw_sleep draw_value with
  | (inr reading, _), (v, secs) =>
      v = reading /\ 0 <= reading <= 100 /\ 0 <= secs < timeout target
  | (inl _, _), (v, secs) =>
      v = -1 /\ 0 <= secs <= Z.max 0 (timeout target)
  end.
Proof.
  unfold poll, poll_block.
  destruct (randint 1 (round_1_2 (timeout target)) draw_sleep) as [e|secs] eqn:Hs.
  - destruct e; cbn; lia.
  - apply randint_range in Hs.
    assert (Hpos : 1 <= timeout target) by (apply round_1_2_positive; lia).
    destruct (Z.leb_spec (timeout target) secs) as [Hle|Hgt].
    + cbn. lia.
    + destruct (randint 0 100 draw_value) as [e|v] eqn:Hv.
      * destruct e; cbn; lia.
      * apply randint_range in Hv. cbn. lia.
Qed.

End PollClaims.

(** ** The periodic scheduler *)

Section SchedulerFacts.
Import Models Monitoring Props.
Context {Env : Type} (func : Target -> Env -> list TargetResult * option exn).

Lemma anchored_succ start interval k :
  (anchored (start + inject_Z interval) interval k
   == anchored start interval (S k))%Q.
Proof.
  unfold anchored. rewrite Nat2Z.inj_succ. unfold Z.succ.
  rewrite inject_Z_plus. ring.
Qed.

(** Waiting [max(0, deadline - now)] from [now] ends at the later of
    the two. *)
Lemma wake_time now_ deadline_ :
  (now_ + Qmax (0 # 1) (deadline_ - now_) == Qmax now_ deadline_)%Q.
Proof.
  destruct (Q.max_spec (0 # 1) (deadline_ - now_)%Q) as [[H1 E1]|[H1 E1]];
    destruct (Q.max_spec now_ deadline_) as [[H2 E2]|[H2 E2]];
    rewrite E1, E2; lra.
Qed.

(** The log of turn [k]: it belongs to the [k]-th observed cycle, which
    saw no stop signal; its deadline is the [k]-th of the anchored
    schedule, and its emissions are the items of that run of [func]. *)
Lemma wrapper_loop_log target interval :
  forall obs next_run_time k l,
    fst (wrapper_loop func target interval next_run_time obs) !! k = Some l ->
    exists c,
      obs !! k = Some c /\
      stop_at_test c = false /\ stop_after_wait c = false /\
      (deadline l == anchored next_run_time interval k)%Q /\
      (woke_at l == Qmax (now c) (deadline l))%Q /\
      emissions l =
        map (fun it => mkEmission it (woke_at l + body_elapsed c)%Q)
            (fst (func target (body_env c))).
Proof.
  induction obs as [|c obs IH]; intros nrt k l Hk; cbn in Hk.
  - rewrite lookup_nil in Hk. discriminate.
  - destruct (stop_at_test c) eqn:Htest;
      [cbn in Hk; rewrite lookup_nil in Hk; discriminate|].
    destruct (stop_after_wait c) eqn:Hwait;
      [cbn in Hk; rewrite lookup_nil in Hk; discriminate|].
    destruct (func target (body_env c)) as [items raised] eqn:Hf.
    destruct (wrapper_loop func target interval (nrt + inject_Z interval)%Q obs)
      as [logs ex] eqn:Hrec.
    cbn in Hk. destruct k as [|k]; cbn in Hk.
    + injection Hk as <-. exists c.
      cbn [deadline woke_at emissions lookup list_lookup]. rewrite Hf.
      split; [reflexivity|]. split; [assumption|]. split; [assumption|].
      split; [|split; [apply wake_time | reflexivity]].
      unfold anchored. change (inject_Z (Z.of_nat 0)) with (0 # 1). ring.
    + specialize (IH (nrt + inject_Z interval)%Q k l).
      rewrite Hrec in IH. destruct (IH Hk) as (c' & Hc' & Ht & Hw & Hd & Hrest).
      exists c'. split; [exact Hc'|]. split; [exact Ht|]. split; [exact Hw|].
      split; [|exact Hrest].
      rewrite Hd. apply anchored_succ.
Qed.


Lemma anchored_step start interval k :
  (anchored start interval (S k) == anchored start interval k + inject_Z interval)%Q.
Proof.
  unfold anchored. rewrite Nat2Z.inj_succ. unfold Z.succ.
  rewrite inject_Z_plus. ring.
Qed.

(** Turns that follow one another without delay begin no later than
    their deadlines. *)
Lemma paced_on_time target :
  forall obs next_run_time clock,
    (clock <= next_run_time)%Q ->
    paced func target next_run_time clock obs ->
    forall k c, obs !! k = Some c ->
                (now c <= anchored next_run_time (interval target) k)%Q.
Proof.
  induction obs as [|c0 obs IH]; intros nrt clock Hclock Hpaced k c Hk.
  - rewrite lookup_nil in Hk. discriminate.
  - cbn [paced] in Hpaced. destruct Hpaced as (Hnow & Hlo & Hhi & Hturn & Hrest).
    destruct k as [|k]; cbn in Hk.
    + injection Hk as <-. unfold anchored.
      change (inject_Z (Z.of_nat 0)) with (0 # 1). rewrite Hnow. lra.
    + rewrite <- anchored_succ. eapply IH; [|exact Hrest|exact Hk].
      rewrite (Q.max_r (0 # 1) (nrt - now c0)%Q) by (rewrite Hnow; lra). lra.
Qed.

Lemma paced_body_bounds target :
  forall obs next_run_time clock,
    paced func target next_run_time clock obs ->
    forall k c, obs !! k = Some c ->
                (0 <= body_elapsed c <= inject_Z (timeout target))%Q.
Proof.
  induction obs as [|c0 obs IH]; intros nrt clock Hpaced k c Hk.
  - rewrite lookup_nil in Hk. discriminate.
  - cbn [paced] in Hpaced. destruct Hpaced as (_ & Hlo & Hhi & _ & Hrest).
    destruct k as [|k]; cbn in Hk.
    + injection Hk as <-. split; assumption.
    + eapply IH; eassumption.
Qed.

(** For a target whose timeout is at most its interval, as
    [check_interval] requires, turns whose body does not raise are no
    longer than the interval. *)
Lemma back_to_back_paced (target : Target) :
  timeout target <= interval target ->
  forall obs next_run_time clock,
    (forall c, In c obs -> snd (func target (body_env c)) = None) ->
    back_to_back func target next_run_time clock obs ->
    paced func target next_run_time clock obs.
Proof.
  intros Hvalid. induction obs as [|c obs IH]; intros nrt clock Hret Hb;
    [exact I|].
  cbn [back_to_back] in Hb. destruct Hb as (Hnow & Hlo & Hhi & Hrest).
  cbn [paced]. split; [exact Hnow|]. split; [exact Hlo|]. split; [exact Hhi|].
  split.
  - unfold turn_seconds. rewrite (Hret c (or_introl eq_refl)).
    rewrite Zle_Qle in Hvalid. lra.
  - apply IH; [|exact Hrest]. intros c' Hc'. apply Hret. right. exact Hc'.
Qed.

(** C3, amended: the deadlines of the wrapper are anchored to its start
    time, and the first deadline is the start time itself, not one
    interval later. The turn with index [k] (from 0) has the deadline
    [start + k * interval]; the next deadline is the previous one plus
    the interval, whatever the turn did and however long it took; an
    item of turn [k] is emitted at [max(now, start + k * interval)] plus
    the time the body took. So across turns that follow one another
    without delay, each body taking at most [timeout] and each turn at
    most [interval], every turn wakes exactly at its deadline and its
    emission lies between [start + k * interval] and
    [start + k * interval + timeout]: the K-th emission, that of turn
    [K - 1], is within one timeout of [start + (K - 1) * interval]. This
    is the case of a target with [timeout <= interval] whose body never
    raises. *)
Theorem wrapper_deadlines_anchored (target : Target) (start : Q)
    (obs : list (Cycle Env)) (k : nat) (l : CycleLog)
    (Hk : fst (wrapper func target start obs) !! k = Some l) :
  exists c,
    obs !! k = Some c /\
    (deadline l == anchored start (interval target) k)%Q /\
    (forall l', fst (wrapper func target start obs) !! S k = Some l' ->
                (deadline l' == deadline l + inject_Z (interval target))%Q) /\
    (forall e, In e (emissions l) ->
       (emitted_at e ==
          Qmax (now c) (anchored start (interval target) k) + body_elapsed c)%Q /\
       ((now c <= anchored start (interval target) k)%Q ->
        (0 <= body_elapsed c <= inject_Z (timeout target))%Q ->
        (anchored start (interval target) k <= emitted_at e
         <= anchored start (interval target) k + inject_Z (timeout target))%Q)) /\
    (paced func target start start obs ->
     (woke_at l == anchored start (interval target) k)%Q /\
     forall e, In e (emissions l) ->
       (anchored start (interval target) k <= emitted_at e
        <= anchored start (interval target) k + inject_Z (timeout target))%Q) /\
    (timeout target <= interval target ->
     (forall c', In c' obs -> snd (func target (body_env c')) = None) ->
     back_to_back func target start start obs ->
     (woke_at l == anchored start (interval target) k)%Q /\
     forall e, In e (emissions l) ->
       (anchored start (interval target) k <= emitted_at e
        <= anchored start (interval target) k + inject_Z (timeout target))%Q).
Proof.
  unfold wrapper in *.
  destruct (wrapper_loop_log _ _ _ _ _ _ Hk) as (c & Hc & _ & _ & Hd & Hw & Hems).
  assert (Hat : forall e, In e (emissions l) ->
            (emitted_at e ==
               Qmax (now c) (anchored start (interval target) k)
               + body_elapsed c)%Q).
  { intros e He. rewrite Hems in He. apply in_map_iff in He.
    destruct He as (it & <- & _). cbn [emitted_at]. rewrite Hw, Hd. reflexivity. }
  assert (Hbound : paced func target start start obs ->
            (woke_at l == anchored start (interval target) k)%Q /\
            forall e, In e (emissions l) ->
              (anchored start (interval target) k <= emitted_at e
               <= anchored start (interval target) k + inject_Z (timeout target))%Q).
  { intros Hpaced.
    assert (Hnow : (now c <= anchored start (interval target) k)%Q).
    { eapply (paced_on_time target obs start start); [lra | exact Hpaced | exact Hc]. }
    assert (Hbody : (0 <= body_elapsed c <= inject_Z (timeout target))%Q).
    { eapply (paced_body_bounds target obs start start); [exact Hpaced | exact Hc]. }
    split.
    + rewrite Hw, Hd. apply Q.max_r, Hnow.
    + intros e He. rewrite (Hat e He), (Q.max_r _ _ Hnow). split; lra. }
  exists c. split; [exact Hc|]. split; [exact Hd|].
  split; [|split; [|split]].
  - intros l' Hk'.
    destruct (wrapper_loop_log _ _ _ _ _ _ Hk') as (_ & _ & _ & _ & Hd' & _).
    rewrite Hd', Hd. apply anchored_step.
  - intros e He. split; [exact (Hat e He)|].
    intros Hnow [Hlo Hhi]. rewrite (Hat e He).
    rewrite (Q.max_r _ _ Hnow). split; lra.
  - exact Hbound.
  - intros Hvalid Hret Hb. apply Hbound.
    apply (back_to_back_paced target Hvalid obs start start Hret Hb).
Qed.

End SchedulerFacts.

Section SchedulerClaims.
Import Models Monitoring Props.

(** C3, as stated, fails: a target with interval 10 whose stream starts
    at time 100 has its first deadline at 100, not at 110, and its first
    sample, polled in one second, is emitted at 101, more than one
    timeout (2) before 110. *)
Lemma first_deadline_is_start_time :
  exists l e,
    fst (monitor_stream web (100 # 1)
           [mkCycle false (100 # 1) false (inr 42) (1 # 1) false]) = [l] /\
    emissions l = [e] /\
    (deadline l == 100 # 1)%Q /\
    ~ (deadline l == (100 # 1) + inject_Z (interval web))%Q /\
    (emitted_at e == 101 # 1)%Q /\
    (emitted_at e + inject_Z (timeout web)
     < (100 # 1) + inject_Z 1 * inject_Z (interval web))%Q.
Proof.
  eexists. eexists. split; [reflexivity|]. split; [reflexivity|].
  cbn. repeat split; try reflexivity.
  intros H. discriminate H.
Qed.

Lemma wrapper_deadlines_anchored_witness :
  exists l e,
    fst (monitor_stream web (100 # 1)
           [mkCycle false (100 # 1) false (inr 42) (1 # 1) false;
            mkCycle false (101 # 1) false (inr 17) (2 # 1) false]) !! 1%nat
      = Some l /\
    emissions l = [e] /\
    (deadline l == 110 # 1)%Q /\
    (woke_at l == 110 # 1)%Q /\
    (110 # 1 <= emitted_at e <= 112 # 1)%Q.
Proof.
  eexists. eexists. split; [reflexivity|]. split; [reflexivity|].
  destruct (wrapper_deadlines_anchored monitor_stream_body web (100 # 1)
              [mkCycle false (100 # 1) false (inr 42) (1 # 1) false;
               mkCycle false (101 # 1) false (inr 17) (2 # 1) false]
              1%nat _ eq_refl) as (c & _ & Hd & _ & _ & _ & Hvalid).
  split; [rewrite Hd; reflexivity|].
  assert (Hb : back_to_back monitor_stream_body web (100 # 1) (100 # 1)
                 [mkCycle false (100 # 1) false (inr 42) (1 # 1) false;
                  mkCycle false (101 # 1) false (inr 17) (2 # 1) false]).
  { cbn. repeat split; try reflexivity; try discriminate. }
  destruct (Hvalid ltac:(cbn; lia)
              ltac:(intros c' [<-|[<-|[]]]; reflexivity) Hb) as (Hw & Hbound).
  split; [rewrite Hw; reflexivity|].
  apply (Hbound _ (or_introl eq_refl)).
Defined.

(** Every item of the stream is built without a timestamp argument, so
    it carries the default of the field. *)
Lemma monitor_stream_timestamp target start obs e :
  In e (emitted (fst (monitor_stream target start obs))) ->
  timestamp (item e) = 0 # 1.
Proof.
  unfold emitted, monitor_stream, wrapper. intros He.
  apply in_concat in He. destruct He as (ems & Hems & He).
  apply in_map_iff in Hems. destruct Hems as (l & <- & Hl).
  apply list_elem_of_In, list_elem_of_lookup in Hl. destruct Hl as (k & Hk).
  destruct (wrapper_loop_log _ _ _ _ _ _ _ Hk) as (c & _ & _ & _ & _ & _ & Hmap).
  rewrite Hmap in He. apply in_map_iff in He. destruct He as (it & <- & Hit).
  cbn [item]. unfold monitor_stream_body in Hit.
  destruct (body_env c); cbn in Hit; [contradiction|].
  destruct Hit as [<-|[]]. reflexivity.
Qed.

End SchedulerClaims.

(** ** The result pipeline *)

Section PipelineFacts.
Import Models Manager Outputs Props.
Context {S : Type} `{OutputHandler S}.

Lemma update_target_status_metrics target_id value ts s :
  metrics (update_target_status target_id value ts s) = metrics s.
Proof. rewrite update_target_status_unfold. reflexivity. Qed.

(** The statements of the [try] block, case by case. *)
Lemma process_item_outcome (f : Faults) (r : TargetResult) (p : OutputProcessor S) :
  process_item f r p =
  match validate_error f with
  | Some e => (p, inl e)
  | None =>
      let p1 := with_manager
                  (update_target_status (target_id r) (value r) (timestamp r)) p in
      let '(h1, raised) :=
        handle r (target_name_of r (monitor_manager p)) (handler p) in
      match raised with
      | Some e => (with_handler h1 p1, inl e)
      | None =>
          let p2 := with_metrics Metrics.processed_messages_inc
                      (processed_count_inc (with_handler h1 p1)) in
          match metrics_error f with
          | Some e => (p2, inl e)
          | None =>
              task_done
                (with_metrics
                   (Metrics.target_value_set (target_name_of r (monitor_manager p))
                      (target_id r) (value r))
                   p2)
          end
      end
  end.
Proof.
  unfold process_item, target_name_of, bind, may_raise, reads, modify,
    call_handler, raise, ret.
  destruct (validate_error f); [reflexivity|]. cbn.
  destruct (handle r _ (handler p)) as [h1 [e|]]; [reflexivity|].
  destruct (metrics_error f); reflexivity.
Qed.

(** What the block leaves alone, whatever its outcome. *)
Lemma process_item_frame f r (p : OutputProcessor S) :
  let p' := fst (process_item f r p) in
  queue p' = queue p /\
  Outputs.error_count p' = Outputs.error_count p /\
  stop_event p' = stop_event p /\
  Metrics.PROCESSING_ERRORS (metrics (monitor_manager p')) =
    Metrics.PROCESSING_ERRORS (metrics (monitor_manager p)) /\
  unfinished_tasks p - 1 <= unfinished_tasks p' <= unfinished_tasks p.
Proof.
  cbv zeta. rewrite process_item_outcome.
  destruct (validate_error f); [cbn; repeat split; lia|]. cbv zeta.
  destruct (handle r _ (handler p)) as [h1 [e|]];
    [cbn -[update_target_status]; rewrite update_target_status_metrics;
     repeat split; lia|].
  destruct (metrics_error f);
    [cbn -[update_target_status]; rewrite update_target_status_metrics;
     repeat split; lia|].
  unfold task_done. cbn [unfinished_tasks with_metrics with_manager
    processed_count_inc with_handler].
  destruct (unfinished_tasks p <=? 0);
    cbn -[update_target_status]; rewrite update_target_status_metrics;
    repeat split; lia.
Qed.

Lemma turn_unaccounted f (p : OutputProcessor S) :
  unaccounted p <= unaccounted (fst (turn f p)).
Proof.
  unfold turn, unaccounted. destruct (stop_event p); [cbn; lia|].
  cbn [queue with_metrics with_manager].
  destruct (queue p) as [|r rest] eqn:Hq; [cbn; rewrite Hq; cbn; lia|].
  pose proof (process_item_frame f r
    (queue_pop (with_metrics
       (Metrics.queue_size_set (Z.of_nat (length (r :: rest)))) p)))
    as (Hqueue & _ & _ & _ & Hun).
  destruct (process_item f r _) as [p2 [e|u]]; cbn [fst] in *.
  - unfold on_error. cbn in *. rewrite Hqueue, Hq. cbn. lia.
  - cbn in *. rewrite Hqueue, Hq. cbn. lia.
Qed.

Lemma step_unaccounted ev (p : OutputProcessor S) :
  unaccounted p <= unaccounted (fst (step ev p)).
Proof.
  destruct ev; cbn [step]; try apply turn_unaccounted;
    unfold unaccounted; cbn; try lia.
  rewrite length_app. cbn. lia.
Qed.

(** No later event lowers what is unaccounted. *)
Lemma run_unaccounted evs :
  forall p : OutputProcessor S, unaccounted p <= unaccounted (fst (run evs p)).
Proof.
  induction evs as [|ev evs IH]; intros p; cbn [run]; [cbn; lia|].
  pose proof (step_unaccounted ev p) as Hstep.
  destruct (step ev p) as [p1 status]; cbn [fst] in Hstep.
  destruct status; try (specialize (IH p1); lia).
  cbn. lia.
Qed.

(** In every state the pipeline reaches from its start, each queued
    item is counted as unfinished. *)
Lemma reachable_unaccounted s h evs :
  0 <= unaccounted (fst (run evs (Outputs.init s h))).
Proof.
  pose proof (run_unaccounted evs (Outputs.init s h)) as Hrun.
  unfold unaccounted in *. cbn in Hrun. lia.
Qed.

End PipelineFacts.

(** ** The consumer, step by step *)

Section ConsumerFacts.
Import Models Manager Outputs Props Consumer.
Context {S : Type} `{OutputHandler S}.

(** The consumer with an item in its hands and the stop event unset:
    what the rest of the [try] block and the [except] clause leave. *)
Lemma resume_item f (c : Consumer S) r :
  control c = Holding r -> stop_event (proc c) = false ->
  let name := target_name_of r (monitor_manager (proc c)) in
  let out := handle r name (handler (proc c)) in
  let p' := proc (resume f c) in
  control (resume f c) = AtTest /\
  queue p' = queue (proc c) /\
  stop_event p' = false /\
  (processed_count p' = processed_count (proc c) + 1 /\
   Outputs.error_count p' = Outputs.error_count (proc c) /\
   unfinished_tasks p' = unfinished_tasks (proc c) - 1 /\
   0 < unfinished_tasks (proc c) /\
   validate_error f = None /\ snd out = None /\ metrics_error f = None
   \/
   processed_count (proc c) <= processed_count p' <= processed_count (proc c) + 1 /\
   Outputs.error_count p' = Outputs.error_count (proc c) + 1 /\
   unfinished_tasks p' = unfinished_tasks (proc c) /\
   (f = no_faults -> 0 < unfinished_tasks (proc c) ->
    processed_count p' = processed_count (proc c) /\ snd out <> None)).
Proof.
  intros Hc Hstop. cbv zeta. unfold resume. rewrite Hc, Hstop.
  rewrite process_item_outcome.
  destruct (validate_error f) as [e|] eqn:Hv.
  { cbn. split; [reflexivity|]. split; [reflexivity|]. split; [exact Hstop|].
    right. split; [lia|]. split; [reflexivity|]. split; [reflexivity|].
    intros ->. discriminate Hv. }
  cbv zeta.
  destruct (handle r (target_name_of r (monitor_manager (proc c))) (handler (proc c)))
    as [h1 [e|]] eqn:Hh.
  { cbn. split; [reflexivity|]. split; [reflexivity|]. split; [exact Hstop|].
    right. split; [lia|]. split; [reflexivity|]. split; [reflexivity|].
    intros _ _. split; [reflexivity | discriminate]. }
  destruct (metrics_error f) as [e|] eqn:Hm.
  { cbn. split; [reflexivity|]. split; [reflexivity|]. split; [exact Hstop|].
    right. split; [lia|]. split; [reflexivity|]. split; [reflexivity|].
    intros ->. discriminate Hm. }
  unfold task_done.
  cbn [unfinished_tasks with_metrics with_manager processed_count_inc with_handler].
  destruct (Z.leb_spec (unfinished_tasks (proc c)) 0) as [Hle|Hgt].
  - cbn. split; [reflexivity|]. split; [reflexivity|]. split; [exact Hstop|].
    right. split; [lia|]. split; [reflexivity|]. split; [reflexivity|].
    intros _ Hpos. lia.
  - cbn. split; [reflexivity|]. split; [reflexivity|]. split; [exact Hstop|].
    left. repeat split; try reflexivity; lia.
Qed.

Ltac step_facts :=
  cbn [proc control];
  repeat split; try lia; try tauto; try congruence; try discriminate;
  try (left; lia).

(** One step of the pipeline, whatever raises in it. The step that drops
    an item is the one that resumes with an item while the stop event is
    set. *)
Lemma step_accounts (ev : Event) (c : Consumer S) :
  let c' := step ev c in
  processed_count (proc c) <= processed_count (proc c') /\
  Outputs.error_count (proc c) <= Outputs.error_count (proc c') /\
  (stop_event (proc c) = true ->
   stop_event (proc c') = true /\
   processed_count (proc c') = processed_count (proc c) /\
   Outputs.error_count (proc c') = Outputs.error_count (proc c) /\
   handler (proc c') = handler (proc c)) /\
  (control c = Left -> control c' = Left) /\
  (control c' = Left -> control c = Left \/ stop_event (proc c) = true) /\
  (lost c' - lost c = Outputs.error_count (proc c') - Outputs.error_count (proc c) \/
   lost c' = lost c + 1 /\ (exists r, control c = Holding r) /\
   stop_event (proc c) = true /\ control c' = Left /\ proc c' = proc c) /\
  unfinished_tasks (proc c) + processed_count (proc c) + (if is_put ev then 1 else 0)
    <= unfinished_tasks (proc c') + processed_count (proc c') /\
  (library_ok ev -> 0 <= lost c ->
   unfinished_tasks (proc c') + processed_count (proc c') =
     unfinished_tasks (proc c) + processed_count (proc c)
     + (if is_put ev then 1 else 0)).
Proof.
  cbv zeta. destruct c as [p k].
  destruct ev as [r | target | tid | | | | | f];
    cbn [step on_proc proc control is_put library_ok].
  - unfold lost, held. cbn. rewrite length_app. cbn. step_facts.
  - unfold lost, held. cbn. step_facts.
  - unfold lost, held. cbn. step_facts.
  - unfold lost, held. cbn. step_facts.
  - unfold lost, held. cbn. step_facts.
  - unfold enter. cbn [control proc].
    destruct k as [| |r|]; try solve [step_facts].
    destruct (stop_event p) eqn:Hstop; unfold lost, held; cbn; step_facts.
  - unfold take. cbn [control proc].
    destruct k as [| |r|]; try solve [step_facts].
    destruct (queue p) as [|r rest] eqn:Hq; [step_facts|].
    unfold lost, held. cbn. rewrite Hq. cbn [tail length]. step_facts.
  - destruct k as [| |r|];
      try solve [unfold resume; cbn [control proc]; step_facts].
    + unfold resume. cbn [control proc].
      destruct (stop_event p) eqn:Hstop; unfold lost, held; cbn; step_facts.
    + destruct (stop_event p) eqn:Hstop.
      { unfold resume. cbn [control proc]. rewrite Hstop.
        unfold lost, held. cbn.
        repeat split; try lia; try tauto.
        right. repeat split; try lia; eauto. }
      pose proof (resume_item f (mkConsumer p (Holding r)) r eq_refl Hstop) as Hres.
      cbv zeta in Hres. cbn [proc control] in Hres.
      destruct Hres as (Hk & Hq & Hs & Hcase).
      unfold lost, held. rewrite Hk, Hq. cbn [proc control].
      destruct Hcase as [(Hp & He & Hu & Hpos & _) | (Hp & He & Hu & Hok)].
      * rewrite Hp, He, Hu. step_facts.
      * rewrite He, Hu. step_facts.
        intros -> Hacc. destruct Hok as [Hp' _]; [reflexivity | lia | lia].
Qed.

Lemma run_snoc (evs : list Event) (ev : Event) (c : Consumer S) :
  run (evs ++ [ev]) c = step ev (run evs c).
Proof. unfold run. rewrite foldl_app. reflexivity. Qed.

(** A run of the pipeline, whatever raises in it: the counters never go
    down; the consumer leaves its loop only with the stop event set, and
    stays out; what is lost grows with the error counter, and by one more
    when an item was dropped at the exit. *)
Lemma run_accounts (evs : list Event) (c : Consumer S) :
  let c' := run evs c in
  processed_count (proc c) <= processed_count (proc c') /\
  Outputs.error_count (proc c) <= Outputs.error_count (proc c') /\
  (stop_event (proc c) = true -> stop_event (proc c') = true) /\
  (control c = Left -> control c' = Left) /\
  (control c' = Left -> control c = Left \/ stop_event (proc c') = true) /\
  (lost c' - lost c = Outputs.error_count (proc c') - Outputs.error_count (proc c) \/
   lost c' - lost c = Outputs.error_count (proc c') - Outputs.error_count (proc c) + 1 /\
   control c' = Left /\ control c <> Left) /\
  unfinished_tasks (proc c) + processed_count (proc c) + puts evs
    <= unfinished_tasks (proc c') + processed_count (proc c') /\
  (Forall library_ok evs -> 0 <= lost c ->
   unfinished_tasks (proc c') + processed_count (proc c') =
     unfinished_tasks (proc c) + processed_count (proc c) + puts evs).
Proof.
  cbv zeta. induction evs as [|ev evs IH] using rev_ind.
  - unfold puts. cbn. step_facts.
  - rewrite run_snoc.
    destruct IH as (Hp & He & Hs & Hl & Hx & Hlost & Hle & Heq).
    pose proof (step_accounts ev (run evs c)) as Hstep. cbv zeta in Hstep.
    destruct Hstep as (Hp1 & He1 & Hs1 & Hl1 & Hx1 & Hlost1 & Hle1 & Heq1).
    assert (Hputs : puts (evs ++ [ev]) = puts evs + (if is_put ev then 1 else 0)).
    { unfold puts. rewrite List.filter_app, length_app. cbn.
      destruct (is_put ev); cbn; lia. }
    rewrite Hputs.
    split; [lia|]. split; [lia|].
    split; [intros Hstop; apply Hs1, Hs, Hstop|].
    split; [intros Hc; apply Hl1, Hl, Hc|].
    split.
    { intros Hleft. destruct (stop_event (proc (step ev (run evs c)))) eqn:Hst;
        [right; reflexivity|].
      destruct (Hx1 Hleft) as [Hc|Hc].
      - destruct (Hx Hc) as [?|Hc1]; [left; assumption|].
        destruct (Hs1 Hc1) as [Hc2 _]. congruence.
      - destruct (Hs1 Hc) as [Hc2 _]. congruence. }
    split.
    { destruct Hlost as [Hd|(Hd & Hleft & Hne)].
      - destruct Hlost1 as [Hd1|(Hd1 & [r Hr] & _ & Hleft1 & Hproc)].
        + left. lia.
        + right. rewrite Hproc. split; [lia|]. split; [exact Hleft1|].
          intros Hc. apply Hl in Hc. congruence.
      - destruct Hlost1 as [Hd1|(_ & [r Hr] & _)]; [|congruence].
        right. split; [lia|]. split; [apply Hl1, Hleft | exact Hne]. }
    split; [lia|].
    intros Hok Hacc. apply Forall_app in Hok as [Hok Hev].
    apply Forall_cons in Hev as [Hev _].
    specialize (Heq Hok Hacc). rewrite (Heq1 Hev); [lia|].
    destruct Hlost as [Hd|(Hd & _)]; lia.
Qed.

End ConsumerFacts.

Section PipelineClaims.
Import Models Manager Outputs Props.
Context {S : Type} `{OutputHandler S}.

Lemma turn_takes_item f (p : OutputProcessor S) result rest :
  stop_event p = false -> queue p = result :: rest ->
  turn f p =
  let p0 := queue_pop
              (with_metrics (Metrics.queue_size_set (Z.of_nat (length (queue p)))) p) in
  match process_item f result p0 with
  | (p2, inr _) => (p2, Running)
  | (p2, inl _) => (on_error p2, Running)
  end.
Proof.
  intros Hrun Hq. unfold turn. rewrite Hrun.
  cbn [queue with_metrics with_manager]. rewrite Hq. reflexivity.
Qed.

(** C7: while the consumer has not been told to stop and an item is
    queued, a turn of its loop takes the item and ends back at the loop
    test, whatever the statements of the [try] block do. When one of
    them raises (the validation of the item, the handler, a metric
    update) the outcome of the block is an exception, and then the turn
    adds one to the consumer's error counter and to the error metric;
    the run goes on with the events that follow. *)
Theorem consumer_catches_item_exceptions
    (f : Faults) (p : OutputProcessor S) (evs : list Event)
    (Hrun : stop_event p = false) (Hq : queue p <> []) :
  exists result rest p_body outcome,
    queue p = result :: rest /\
    process_item f result
      (queue_pop
         (with_metrics (Metrics.queue_size_set (Z.of_nat (length (queue p)))) p))
      = (p_body, outcome) /\
    (is_Some (validate_error f) \/
     is_Some (snd (handle result (target_name_of result (monitor_manager p))
                     (handler p))) \/
     is_Some (metrics_error f) ->
     exists e, outcome = inl e) /\
    snd (turn f p) = Running /\
    queue (fst (turn f p)) = rest /\
    run (Turn f :: evs) p = run evs (fst (turn f p)) /\
    match outcome with
    | inl _ =>
        fst (turn f p) = on_error p_body /\
        Outputs.error_count (fst (turn f p)) = Outputs.error_count p + 1 /\
        Metrics.PROCESSING_ERRORS (metrics (monitor_manager (fst (turn f p)))) =
          Metrics.PROCESSING_ERRORS (metrics (monitor_manager p)) + 1
    | inr _ =>
        fst (turn f p) = p_body /\
        Outputs.error_count (fst (turn f p)) = Outputs.error_count p
    end.
Proof.
  destruct (queue p) as [|result rest] eqn:Hqueue; [contradiction|].
  pose proof (turn_takes_item f p result rest Hrun Hqueue) as Hturn.
  cbv zeta in Hturn. rewrite Hqueue in Hturn.
  pose proof (process_item_frame f result
    (queue_pop (with_metrics
       (Metrics.queue_size_set (Z.of_nat (length (result :: rest)))) p)))
    as (Hfq & Hfe & _ & Hfm & _).
  pose proof (process_item_outcome f result
    (queue_pop (with_metrics
       (Metrics.queue_size_set (Z.of_nat (length (result :: rest)))) p)))
    as Hout.
  destruct (process_item f result _) as [p_body outcome] eqn:Hbody.
  cbn [fst] in Hfq, Hfe, Hfm.
  exists result, rest, p_body, outcome.
  split; [reflexivity|]. split; [exact Hbody|]. split.
  { change (monitor_manager (queue_pop (with_metrics
             (Metrics.queue_size_set (Z.of_nat (length (result :: rest)))) p)))
      with (mkState (mm (monitor_manager p)) (events (monitor_manager p))
              (created_tasks (monitor_manager p))
              (Metrics.queue_size_set (Z.of_nat (length (result :: rest)))
                 (metrics (monitor_manager p)))) in Hout.
    change (target_name_of result (mkState (mm (monitor_manager p))
              (events (monitor_manager p)) (created_tasks (monitor_manager p))
              (Metrics.queue_size_set (Z.of_nat (length (result :: rest)))
                 (metrics (monitor_manager p)))))
      with (target_name_of result (monitor_manager p)) in Hout.
    change (handler (queue_pop (with_metrics
             (Metrics.queue_size_set (Z.of_nat (length (result :: rest)))) p)))
      with (handler p) in Hout.
    intros Hraise.
    destruct (validate_error f) as [e|];
      [injection Hout as _ ->; eauto|].
    destruct (handle result (target_name_of result (monitor_manager p)) (handler p))
      as [h1 [e|]]; [injection Hout as _ ->; eauto|].
    destruct (metrics_error f) as [e|]; [cbv zeta in Hout; injection Hout as _ ->; eauto|].
    destruct Hraise as [[? [=]]|[[? [=]]|[? [=]]]]. }
  assert (Hrunning : snd (turn f p) = Running).
  { rewrite Hturn. destruct outcome; reflexivity. }
  split; [exact Hrunning|].
  assert (Hrest : queue (fst (turn f p)) = rest).
  { rewrite Hturn. destruct outcome; cbn; rewrite Hfq; cbn; rewrite Hqueue;
      reflexivity. }
  split; [exact Hrest|]. split.
  { cbn [run step]. destruct (turn f p) as [p1 status]. cbn in Hrunning.
    rewrite Hrunning. reflexivity. }
  rewrite Hturn. destruct outcome as [e|u]; cbn [fst].
  - split; [reflexivity|]. unfold on_error. cbn. rewrite Hfe, Hfm. cbn.
    split; reflexivity.
  - split; [reflexivity|]. rewrite Hfe. reflexivity.
Qed.

(** The steps of a turn that takes an item, run one after the other
    with nothing in between, are the turn. *)
Lemma consumer_turn f (p : OutputProcessor S) result rest :
  stop_event p = false -> queue p = result :: rest ->
  Consumer.run [Consumer.Enter; Consumer.Take; Consumer.Resume f]
    (Consumer.mkConsumer p Consumer.AtTest)
  = Consumer.mkConsumer (fst (turn f p)) Consumer.AtTest.
Proof.
  intros Hrun Hq. destruct p as [m q u h pc ec st].
  cbn in Hrun, Hq. subst q st.
  unfold Consumer.run, turn.
  cbn -[process_item Metrics.queue_size_set].
  destruct (process_item f result _) as [p2 [e|u']]; reflexivity.
Qed.

(** C10: when the handler raises on an item, the turn still ends at the
    loop test, but of the item's effects only some are applied. The
    supervisor's status for the target has been updated: it holds the
    item's timestamp and value, its check count is one higher and its
    error count is one higher for a negative value (a target without a
    status counts from zero); no other status has changed. The handler
    was called, the processed count and the metric of processed messages
    are unchanged, the error count is one higher, and the queue's count
    of unfinished tasks is what it was although the item has left the
    queue. From then on, whatever happens and however the steps of the
    consumer are interleaved with the rest, the count of unfinished tasks
    exceeds the number of queued items, so it is never zero and [join]
    never returns. *)
Theorem handler_failure_partial_effects
    (f : Faults) (p : OutputProcessor S) (result : TargetResult)
    (rest : list TargetResult) (e : exn)
    (Hrun : stop_event p = false)
    (Hq : queue p = result :: rest)
    (Hinv : 0 <= unaccounted p)
    (Hvalid : validate_error f = None)
    (Hraise : snd (handle result (target_name_of result (monitor_manager p))
                     (handler p)) = Some e) :
  let p' := fst (turn f p) in
  let before :=
    default TargetStatus_new
      (target_statuses (mm (monitor_manager p)) !! target_id result) in
  snd (turn f p) = Running /\
  Consumer.run [Consumer.Enter; Consumer.Take; Consumer.Resume f]
    (Consumer.mkConsumer p Consumer.AtTest)
    = Consumer.mkConsumer p' Consumer.AtTest /\
  target_statuses (mm (monitor_manager p')) !! target_id result =
    Some (mkTargetStatus
            (Some (timestamp result)) (Some (value result))
            (check_count before + 1)
            (if value result <? 0
             then Models.error_count before + 1
             else Models.error_count before)) /\
  (forall k, k <> target_id result ->
     target_statuses (mm (monitor_manager p')) !! k =
     target_statuses (mm (monitor_manager p)) !! k) /\
  handler p' =
    fst (handle result (target_name_of result (monitor_manager p)) (handler p)) /\
  processed_count p' = processed_count p /\
  Metrics.PROCESSED_MESSAGES (metrics (monitor_manager p')) =
    Metrics.PROCESSED_MESSAGES (metrics (monitor_manager p)) /\
  Outputs.error_count p' = Outputs.error_count p + 1 /\
  queue p' = rest /\
  unfinished_tasks p' = unfinished_tasks p /\
  (forall evs : list Event,
     Z.of_nat (length (queue (fst (run evs p')))) < unfinished_tasks (fst (run evs p')) /\
     0 < unfinished_tasks (fst (run evs p')) /\
     join_returns (fst (run evs p')) = false) /\
  (forall evs : list Consumer.Event,
     let c := Consumer.run evs (Consumer.mkConsumer p' Consumer.AtTest) in
     Z.of_nat (length (queue (Consumer.proc c))) < unfinished_tasks (Consumer.proc c) /\
     0 < unfinished_tasks (Consumer.proc c) /\
     join_returns (Consumer.proc c) = false).
Proof.
  cbv zeta.
  split; [rewrite (turn_takes_item f p result rest Hrun Hq); cbv zeta;
          destruct (process_item f result _) as [p2 [x|u]]; reflexivity|].
  split; [apply (consumer_turn f p result rest Hrun Hq)|].
  rewrite (turn_takes_item f p result rest Hrun Hq). cbv zeta.
  rewrite process_item_outcome, Hvalid.
  change (target_name_of result (monitor_manager (queue_pop (with_metrics
            (Metrics.queue_size_set (Z.of_nat (length (queue p)))) p))))
    with (target_name_of result (monitor_manager p)).
  change (handler (queue_pop (with_metrics
            (Metrics.queue_size_set (Z.of_nat (length (queue p)))) p)))
    with (handler p).
  destruct (handle result (target_name_of result (monitor_manager p)) (handler p))
    as [h1 raised]. cbn [snd] in Hraise. subst raised. cbv zeta. cbn [fst snd].
  split.
  { cbn -[update_target_status]. rewrite update_target_status_unfold.
    cbn. rewrite lookup_insert_eq. reflexivity. }
  split.
  { intros k Hk. cbn -[update_target_status]. rewrite update_target_status_unfold.
    cbn. rewrite lookup_insert_ne by congruence. reflexivity. }
  split; [reflexivity|]. split; [reflexivity|].
  split; [cbn -[update_target_status]; rewrite update_target_status_metrics;
          reflexivity|].
  split; [reflexivity|].
  split; [cbn; rewrite Hq; reflexivity|]. split; [reflexivity|].
  split.
  - intros evs.
    match goal with |- context [run evs ?q] =>
      pose proof (run_unaccounted evs q) as Hmono;
      assert (Hone : unaccounted q = unaccounted p + 1)
    end.
    { unfold unaccounted. cbn. rewrite Hq. cbn [tail length]. lia. }
    unfold unaccounted in Hmono, Hone, Hinv. unfold join_returns.
    split; [lia|]. split; [lia|]. apply Z.eqb_neq. lia.
  - intros evs.
    match goal with |- context [Consumer.run evs ?c0] =>
      pose proof (run_accounts evs c0) as Hacc;
      assert (Hone : Consumer.lost c0 = unaccounted p + 1)
    end.
    { unfold Consumer.lost, Consumer.held, unaccounted. cbn. rewrite Hq.
      cbn [tail length]. lia. }
    cbv zeta in Hacc. destruct Hacc as (_ & He & _ & _ & _ & Hlost & _).
    match goal with |- context [Consumer.run evs ?c0] =>
      assert (Hheld : 0 <= Consumer.held (Consumer.run evs c0))
        by (unfold Consumer.held; destruct (Consumer.control _); lia)
    end.
    unfold Consumer.lost in Hlost, Hone. unfold unaccounted in Hone, Hinv.
    unfold join_returns.
    split; [lia|]. split; [lia|]. apply Z.eqb_neq. lia.
Qed.

End PipelineClaims.

Section PipelineExamples.
Import Models Manager Monitoring Outputs Props.

Lemma consumer_catches_item_exceptions_witness :
  stop_event one_queued = false /\
  queue one_queued <> [] /\
  snd (turn no_faults one_queued) = Running /\
  Outputs.error_count (fst (run [Turn no_faults] one_queued)) = 1.
Proof.
  assert (Hrun : stop_event one_queued = false) by reflexivity.
  assert (Hq : queue one_queued <> []) by discriminate.
  split; [exact Hrun|]. split; [exact Hq|].
  destruct (consumer_catches_item_exceptions no_faults one_queued [] Hrun Hq)
    as (result & rest & p_body & outcome & _ & _ & _ & Hstatus & _ & Hgo & _).
  split; [exact Hstatus|].
  rewrite Hgo. reflexivity.
Defined.

Lemma handler_failure_partial_effects_witness :
  target_statuses (mm (monitor_manager (fst (turn no_faults one_queued)))) !! 7%N =
    Some (mkTargetStatus (Some (0 # 1)) (Some 42) 1 0) /\
  processed_count (fst (turn no_faults one_queued)) = 0 /\
  Outputs.error_count (fst (turn no_faults one_queued)) = 1 /\
  unfinished_tasks (fst (turn no_faults one_queued)) = 1 /\
  queue (fst (turn no_faults one_queued)) = [] /\
  join_returns (fst (run [Turn no_faults; SetStop] (fst (turn no_faults one_queued))))
    = false /\
  join_returns
    (Consumer.proc
       (Consumer.run [Consumer.Enter; Consumer.SetStop; Consumer.Resume no_faults]
          (Consumer.mkConsumer (fst (turn no_faults one_queued)) Consumer.AtTest)))
    = false.
Proof.
  destruct (handler_failure_partial_effects no_faults one_queued
              (mkTargetResult 7%N 42 (0 # 1)) [] (OSError "Permission denied")
              eq_refl eq_refl ltac:(vm_compute; discriminate) eq_refl eq_refl)
    as (_ & _ & Hstatus & _ & _ & Hp & _ & He & Hqueue & Hun & Hlater & Hsteps).
  split; [exact Hstatus|].
  split; [exact Hp|]. split; [exact He|]. split; [exact Hun|].
  split; [exact Hqueue|].
  split; [apply (Hlater [Turn no_faults; SetStop])|].
  apply (Hsteps [Consumer.Enter; Consumer.SetStop; Consumer.Resume no_faults]).
Defined.

(** C4 on the code: a sample that the stream of [web] emits at time 6
    (the turn begins at 5, the poll takes one second) carries the
    timestamp 0, and once the consumer has processed it the target's
    [last_check] is 0, not the time the sample was produced. *)
Theorem last_check_is_not_production_time :
  exists e,
    emitted (fst (monitor_stream web (5 # 1)
                    [mkCycle false (5 # 1) false (inr 42) (1 # 1) false])) = [e] /\
    (emitted_at e == 6 # 1)%Q /\
    timestamp (item e) = 0 # 1 /\
    ~ (timestamp (item e) == emitted_at e)%Q /\
    let p' := fst (run [Put (item e); Turn no_faults]
                     (Outputs.init (start_monitoring web Manager.init)
                        ([] : list ConsoleLine))) in
    processed_count p' = 1 /\
    target_statuses (mm (monitor_manager p')) !! 7%N =
      Some (mkTargetStatus (Some (0 # 1)) (Some 42) 1 0).
Proof.
  eexists. split; [reflexivity|]. cbn [emitted_at item timestamp].
  split; [reflexivity|]. split; [reflexivity|]. split.
  - intros Heq. discriminate Heq.
  - split; vm_compute; reflexivity.
Qed.

End PipelineExamples.

(** * More properties *)

(** ** The supervisor: stopping *)

Section StopFacts.
Import Models Manager Props Notions.

Lemma stop_monitoring_tasks tid k s :
  tasks (mm (stop_monitoring tid s)) !! k =
  if decide (k = tid) then None else tasks (mm s) !! k.
Proof.
  destruct (tasks (mm s) !! tid) eqn:Ht.
  - rewrite stop_monitoring_unfold by eauto. cbn.
    destruct (decide (k = tid)) as [->|Hne].
    + apply lookup_delete_eq.
    + apply lookup_delete_ne. congruence.
  - rewrite stop_monitoring_absent by assumption.
    destruct (decide (k = tid)) as [->|Hne]; [assumption | reflexivity].
Qed.

Lemma stop_monitoring_statuses tid k s :
  target_statuses (mm (stop_monitoring tid s)) !! k =
  if decide (k = tid /\ is_Some (tasks (mm s) !! tid)) then None
  else target_statuses (mm s) !! k.
Proof.
  destruct (tasks (mm s) !! tid) eqn:Ht.
  - rewrite stop_monitoring_unfold by (rewrite Ht; eauto). cbn.
    destruct (decide (k = tid /\ is_Some (Some n))) as [[-> _]|Hne].
    + apply lookup_delete_eq.
    + apply lookup_delete_ne. intros ->. apply Hne. eauto.
  - rewrite stop_monitoring_absent by assumption.
    destruct (decide (k = tid /\ is_Some (@None nat))) as [[_ [? [=]]]|_].
    reflexivity.
Qed.

Lemma stop_all_ids_tasks ids :
  forall s k,
    tasks (mm (stop_all_ids ids s)) !! k =
    if decide (k ∈ ids) then None else tasks (mm s) !! k.
Proof.
  unfold stop_all_ids.
  induction ids as [|i ids IH]; intros s k; cbn [foldl].
  - destruct (decide (k ∈ [])) as [Hin|_]; [inversion Hin | reflexivity].
  - rewrite IH, stop_monitoring_tasks.
    destruct (decide (k ∈ ids)) as [Hin|Hnin].
    + rewrite decide_True by (right; assumption). reflexivity.
    + destruct (decide (k = i)) as [->|Hne].
      * rewrite decide_True by left. reflexivity.
      * rewrite decide_False; [reflexivity|].
        intros Hin. apply elem_of_cons in Hin. destruct Hin; contradiction.
Qed.

Lemma stop_all_ids_statuses ids :
  forall s k,
    target_statuses (mm (stop_all_ids ids s)) !! k =
    if decide (k ∈ ids /\ is_Some (tasks (mm s) !! k)) then None
    else target_statuses (mm s) !! k.
Proof.
  unfold stop_all_ids.
  induction ids as [|i ids IH]; intros s k; cbn [foldl].
  - rewrite decide_False; [reflexivity|]. intros [Hin _]. inversion Hin.
  - rewrite IH, stop_monitoring_tasks, stop_monitoring_statuses.
    destruct (decide (k = i)) as [->|Hne].
    + rewrite (decide_False (P := i ∈ ids /\ is_Some None))
        by (intros [_ [? [=]]]).
      destruct (tasks (mm s) !! i) eqn:Hi.
      * rewrite !decide_True; [reflexivity | | ]; split; eauto; left.
      * rewrite !decide_False; [reflexivity | | ]; intros [_ [? [=]]].
    + rewrite (decide_False (P := k = i /\ _)) by (intros [? _]; contradiction).
      destruct (decide (k ∈ ids /\ is_Some (tasks (mm s) !! k))) as [[Hin Hs]|Hn].
      * rewrite decide_True; [reflexivity|]. split; [right|]; assumption.
      * rewrite decide_False; [reflexivity|].
        intros [Hin Hs]. apply Hn. split; [|assumption].
        apply elem_of_cons in Hin. destruct Hin; [contradiction|assumption].
Qed.

Lemma stop_monitoring_gauge tid s :
  Metrics.ACTIVE_TARGETS (metrics (stop_monitoring tid s))
    - get_active_count (stop_monitoring tid s) =
  Metrics.ACTIVE_TARGETS (metrics s) - get_active_count s.
Proof.
  destruct (tasks (mm s) !! tid) eqn:Ht.
  - rewrite stop_monitoring_unfold by eauto. unfold get_active_count. cbn.
    assert (Hsome : is_Some (tasks (mm s) !! tid)) by eauto.
    pose proof (map_size_delete_Some tid (tasks (mm s)) Hsome) as Hsz.
    pose proof (map_size_ne_0_lookup_2 (tasks (mm s)) tid Hsome) as Hnz.
    lia.
  - rewrite stop_monitoring_absent by assumption. reflexivity.
Qed.

End StopFacts.

Section StopClaims.
Import Models Manager Props Notions.

Lemma elem_of_task_keys (m : gmap UUID nat) k :
  k ∈ map fst (map_to_list m) <-> is_Some (m !! k).
Proof.
  rewrite list_elem_of_In, in_map_iff. split.
  - intros ([k' v] & <- & Hin). apply list_elem_of_In, elem_of_map_to_list in Hin.
    cbn. eauto.
  - intros [v Hv]. exists (k, v). split; [reflexivity|].
    apply list_elem_of_In, elem_of_map_to_list. exact Hv.
Qed.

(** X1: [stop_all] on a state whose definitions, tasks and stop events
    go together leaves no task, no stop event and no definition; the
    active count is 0 and the gauge has gone down by the former count. A
    status survives exactly when its id had no task. *)
Theorem stop_all_clears_registry (s : State) (Hinv : registered_have_status s) :
  let s' := stop_all s in
  tasks (mm s') = ∅ /\
  stop_events (mm s') = ∅ /\
  targets (mm s') = ∅ /\
  get_active_count s' = 0 /\
  Metrics.ACTIVE_TARGETS (metrics s') =
    Metrics.ACTIVE_TARGETS (metrics s) - get_active_count s /\
  (forall k, target_statuses (mm s') !! k =
             match tasks (mm s) !! k with
             | Some _ => None
             | None => target_statuses (mm s) !! k
             end).
Proof.
  cbv zeta.
  assert (Htasks : tasks (mm (stop_all s)) = ∅).
  { apply map_eq. intros k. unfold stop_all.
    rewrite stop_all_ids_tasks, lookup_empty.
    destruct (decide (k ∈ map fst (map_to_list (tasks (mm s))))) as [|Hn];
      [reflexivity|].
    destruct (tasks (mm s) !! k) eqn:Hk; [|reflexivity].
    exfalso. apply Hn, elem_of_task_keys. eauto. }
  assert (Hreg : registered_have_status (stop_all s)).
  { unfold stop_all.
    apply (stop_all_ids_preserves registered_have_status); [|assumption].
    intros; by apply stop_monitoring_registered. }
  destruct Hreg as (Ht & He & _). rewrite Htasks, dom_empty_L in Ht, He.
  apply dom_empty_iff_L in Ht, He.
  assert (Hcount : get_active_count (stop_all s) = 0).
  { unfold get_active_count. rewrite Htasks, map_size_empty. reflexivity. }
  split; [exact Htasks|]. split; [exact He|]. split; [exact Ht|].
  split; [exact Hcount|]. split.
  - assert (Hg : Metrics.ACTIVE_TARGETS (metrics (stop_all s))
                 - get_active_count (stop_all s)
                 = Metrics.ACTIVE_TARGETS (metrics s) - get_active_count s).
    { unfold stop_all.
      apply (stop_all_ids_preserves
               (fun s' => Metrics.ACTIVE_TARGETS (metrics s') - get_active_count s'
                          = Metrics.ACTIVE_TARGETS (metrics s) - get_active_count s));
        [|reflexivity].
      intros tid s1 H1. rewrite stop_monitoring_gauge. exact H1. }
    lia.
  - intros k. unfold stop_all. rewrite stop_all_ids_statuses.
    destruct (tasks (mm s) !! k) eqn:Hk.
    + rewrite decide_True; [reflexivity|].
      split; [apply elem_of_task_keys; rewrite Hk|]; eauto.
    + rewrite decide_False; [reflexivity|]. intros [_ [? [=]]].
Qed.

Lemma stop_all_clears_registry_witness :
  registered_have_status
    (update_target_status 9%N 5 (0 # 1) (start_monitoring web init)) /\
  tasks (mm (stop_all (update_target_status 9%N 5 (0 # 1)
                         (start_monitoring web init)))) = ∅ /\
  target_statuses (mm (stop_all (update_target_status 9%N 5 (0 # 1)
                                   (start_monitoring web init)))) !! 9%N
    = Some (mkTargetStatus (Some (0 # 1)) (Some 5) 1 0).
Proof.
  assert (Hr : registered_have_status
                 (update_target_status 9%N 5 (0 # 1) (start_monitoring web init))).
  { apply update_target_status_registered, start_monitoring_registered,
      lockstep_registered, lockstep_init. }
  split; [exact Hr|].
  destruct (stop_all_clears_registry _ Hr) as (Ht & _ & _ & _ & _ & Hs).
  split; [exact Ht|]. rewrite Hs. reflexivity.
Defined.

(** X2: stopping an id twice is stopping it once, and stopping an id
    that has no task changes nothing. *)
Theorem stop_monitoring_idempotent (tid : UUID) (s : State) :
  stop_monitoring tid (stop_monitoring tid s) = stop_monitoring tid s /\
  (tasks (mm s) !! tid = None -> stop_monitoring tid s = s).
Proof.
  split; [|apply stop_monitoring_absent].
  apply stop_monitoring_absent. rewrite stop_monitoring_tasks.
  rewrite decide_True; reflexivity.
Qed.

Lemma stop_monitoring_idempotent_witness :
  stop_monitoring 9%N (start_monitoring web init) = start_monitoring web init.
Proof.
  apply (proj2 (stop_monitoring_idempotent 9%N (start_monitoring web init))).
  reflexivity.
Defined.

Lemma insert_last_flag (l : list bool) (b b' : bool) :
  <[length l := b']> (l ++ [b]) = l ++ [b'].
Proof. induction l as [|x l IH]; cbn; [reflexivity|]. f_equal. exact IH. Qed.

(** X3: starting a target whose id is in none of the four dictionaries
    and stopping it again gives back the dictionaries, the metrics and the
    active count; what remains of the pair is the stop event, now set, and
    the task that was created for the target with that event. *)
Theorem start_then_stop_restores (target : Target) (s : State)
    (Htask : tasks (mm s) !! id target = None)
    (Hevent : stop_events (mm s) !! id target = None)
    (Htarget : targets (mm s) !! id target = None)
    (Hstatus : target_statuses (mm s) !! id target = None) :
  let s' := stop_monitoring (id target) (start_monitoring target s) in
  mm s' = mm s /\
  metrics s' = metrics s /\
  get_active_count s' = get_active_count s /\
  events s' = events s ++ [true] /\
  created_tasks s' = created_tasks s ++ [(target, length (events s))].
Proof.
  cbv zeta.
  assert (Hstart : start_monitoring target s =
    mkState
      (mkMonitorManager (<[id target := length (created_tasks s)]> (tasks (mm s)))
         (<[id target := length (events s)]> (stop_events (mm s)))
         (<[id target := target]> (targets (mm s)))
         (<[id target := TargetStatus_new]> (target_statuses (mm s))))
      (events s ++ [false]) (created_tasks s ++ [(target, length (events s))])
      (Metrics.active_targets_add 1 (metrics s))).
  { unfold start_monitoring. rewrite Htask. reflexivity. }
  rewrite Hstart.
  rewrite stop_monitoring_unfold by (cbn; rewrite lookup_insert_eq; eauto).
  cbn. rewrite !lookup_insert_eq, !delete_insert_eq.
  rewrite (delete_id _ _ Htask), (delete_id _ _ Hevent),
    (delete_id _ _ Htarget), (delete_id _ _ Hstatus).
  unfold get_active_count. cbn.
  split; [destruct s as [[? ? ? ?] ? ? ?]; reflexivity|].
  split.
  - destruct (metrics s); unfold Metrics.active_targets_add; cbn.
    f_equal. lia.
  - split; [reflexivity|]. split; [apply insert_last_flag | reflexivity].
Qed.

Lemma start_then_stop_restores_witness :
  tasks (mm init) !! id web = None /\
  mm (stop_monitoring (id web) (start_monitoring web init)) = mm init /\
  events (stop_monitoring (id web) (start_monitoring web init)) = [true].
Proof.
  split; [reflexivity|].
  destruct (start_then_stop_restores web init eq_refl eq_refl eq_refl eq_refl)
    as (Hmm & _ & _ & Hev & _).
  split; [exact Hmm | exact Hev].
Defined.

End StopClaims.

(** ** The supervisor: what holds in every reachable state *)

Section ReachableFacts.
Import Models Manager Props Notions.

Lemma run_ops_preserves (P : State -> Prop) :
  (forall op s, P s -> P (apply_op op s)) ->
  forall ops s, P s -> P (run_ops ops s).
Proof.
  intros Hstep ops. unfold run_ops.
  induction ops as [|op ops IH]; intros s Hs; cbn; [assumption|].
  apply IH, Hstep, Hs.
Qed.

Lemma start_monitoring_gauge target s :
  Metrics.ACTIVE_TARGETS (metrics (start_monitoring target s))
    - get_active_count (start_monitoring target s) =
  Metrics.ACTIVE_TARGETS (metrics s) - get_active_count s.
Proof.
  unfold start_monitoring. destruct (tasks (mm s) !! id target) eqn:Ht;
    [reflexivity|].
  unfold get_active_count. cbn.
  rewrite (map_size_insert_None _ _ _ Ht). lia.
Qed.

Lemma apply_op_gauge op s :
  Metrics.ACTIVE_TARGETS (metrics (apply_op op s)) - get_active_count (apply_op op s) =
  Metrics.ACTIVE_TARGETS (metrics s) - get_active_count s.
Proof.
  destruct op as [target | tid | | tid value ts]; cbn [apply_op].
  - apply start_monitoring_gauge.
  - apply stop_monitoring_gauge.
  - unfold stop_all.
    apply (stop_all_ids_preserves
             (fun s' => Metrics.ACTIVE_TARGETS (metrics s') - get_active_count s'
                        = Metrics.ACTIVE_TARGETS (metrics s) - get_active_count s));
      [|reflexivity].
    intros tid s1 H1. rewrite stop_monitoring_gauge. exact H1.
  - rewrite update_target_status_unfold. reflexivity.
Qed.

Lemma apply_op_registered op s :
  registered_have_status s -> registered_have_status (apply_op op s).
Proof.
  intros Hs. destruct op as [target | target_id | | target_id value ts]; cbn.
  - by apply start_monitoring_registered.
  - by apply stop_monitoring_registered.
  - unfold stop_all.
    apply (stop_all_ids_preserves registered_have_status); [|assumption].
    intros; by apply stop_monitoring_registered.
  - by apply update_target_status_registered.
Qed.

(** X4: after any sequence of supervisor operations on a new manager,
    the active-targets gauge equals the number of tasks, which is also the
    number of target definitions. *)
Theorem active_gauge_counts_tasks (ops : list Op) :
  let s := run_ops ops init in
  Metrics.ACTIVE_TARGETS (metrics s) = get_active_count s /\
  get_active_count s = Z.of_nat (size (targets (mm s))) /\
  get_active_count s = Z.of_nat (size (stop_events (mm s))).
Proof.
  cbv zeta.
  assert (Hg : Metrics.ACTIVE_TARGETS (metrics (run_ops ops init))
               - get_active_count (run_ops ops init) = 0).
  { apply (run_ops_preserves
             (fun s => Metrics.ACTIVE_TARGETS (metrics s) - get_active_count s = 0));
      [|reflexivity].
    intros op s Hs. rewrite apply_op_gauge. exact Hs. }
  assert (Hr : registered_have_status (run_ops ops init)).
  { apply (run_ops_preserves registered_have_status).
    - intros op s Hs. apply (apply_op_registered op s Hs).
    - apply lockstep_registered, lockstep_init. }
  destruct Hr as (Ht & He & _).
  split; [lia|]. unfold get_active_count.
  rewrite <- (size_dom (tasks (mm (run_ops ops init)))).
  rewrite <- (size_dom (targets (mm (run_ops ops init)))).
  rewrite <- (size_dom (stop_events (mm (run_ops ops init)))).
  rewrite Ht, He. split; reflexivity.
Qed.

(** *** Tasks and their stop events *)

Lemma wired_init : wired init.
Proof.
  unfold wired, init; cbn. split; [reflexivity|]. split.
  - intros i t ev Hi. rewrite lookup_nil in Hi. discriminate.
  - split.
    + intros tid i Hi. rewrite lookup_empty in Hi. discriminate.
    + intros i b Hi. rewrite lookup_nil in Hi. discriminate.
Qed.

Lemma wired_start target s : wired s -> wired (start_monitoring target s).
Proof.
  intros Hw. unfold start_monitoring.
  destruct (tasks (mm s) !! id target) eqn:Htask; [exact Hw|].
  destruct Hw as (Hlen & Hidx & Hreg & Hflag).
  unfold wired; cbn. split; [|split; [|split]].
  - rewrite !length_app. cbn. lia.
  - intros i t ev Hi. apply lookup_app_Some in Hi.
    destruct Hi as [Hi|[Hge Hi]]; [eapply Hidx; eassumption|].
    destruct (i - length (created_tasks s))%nat as [|k] eqn:Hk; cbn in Hi;
      [|discriminate Hi].
    injection Hi as _ <-. lia.
  - intros tid i Hi.
    destruct (decide (tid = id target)) as [->|Hne].
    + rewrite lookup_insert_eq in Hi. injection Hi as <-.
      rewrite !lookup_insert_eq, <- Hlen. split; [reflexivity|].
      exists target. split; [|split; reflexivity].
      rewrite lookup_app_r by lia. rewrite Hlen, Nat.sub_diag. reflexivity.
    + rewrite lookup_insert_ne in Hi by congruence.
      rewrite !lookup_insert_ne by congruence.
      destruct (Hreg tid i Hi) as (He & t & Hc & Hid & Ht).
      split; [exact He|]. exists t. split; [|split; assumption].
      apply lookup_app_l_Some. exact Hc.
  - intros i b Hi. apply lookup_app_Some in Hi.
    destruct Hi as [Hi|[Hge Hi]].
    + rewrite (Hflag i b Hi). apply lookup_lt_Some in Hi. split.
      * intros (tid & Ht). exists tid.
        rewrite lookup_insert_ne; [exact Ht|]. intros <-. congruence.
      * intros (tid & Ht).
        destruct (decide (tid = id target)) as [->|Hne].
        -- rewrite lookup_insert_eq in Ht. injection Ht as <-. lia.
        -- rewrite lookup_insert_ne in Ht by congruence. eauto.
    + destruct (i - length (events s))%nat as [|k] eqn:Hk; cbn in Hi;
        [|discriminate Hi].
      injection Hi as <-. split; [|reflexivity]. intros _.
      exists (id target). rewrite lookup_insert_eq. f_equal. lia.
Qed.

Lemma wired_stop tid s : wired s -> wired (stop_monitoring tid s).
Proof.
  intros Hw. destruct (tasks (mm s) !! tid) as [i|] eqn:Htask;
    [|rewrite stop_monitoring_absent; assumption].
  destruct Hw as (Hlen & Hidx & Hreg & Hflag).
  destruct (Hreg tid i Htask) as (Hev & t & Hc & Hid & Ht).
  rewrite stop_monitoring_unfold by eauto. rewrite Hev.
  unfold wired; cbn. split; [|split; [|split]].
  - rewrite length_insert. exact Hlen.
  - exact Hidx.
  - intros tid' j Hj.
    destruct (decide (tid' = tid)) as [->|Hne];
      [rewrite lookup_delete_eq in Hj; discriminate|].
    rewrite lookup_delete_ne in Hj by congruence.
    rewrite !lookup_delete_ne by congruence. apply Hreg, Hj.
  - intros j b Hj.
    destruct (decide (j = i)) as [->|Hne].
    + rewrite list_lookup_insert_eq in Hj
        by (apply lookup_lt_Some in Hj; rewrite length_insert in Hj; exact Hj).
      injection Hj as <-. split; [discriminate|].
      intros (tid' & Ht').
      destruct (decide (tid' = tid)) as [->|Hne];
        [rewrite lookup_delete_eq in Ht'; discriminate|].
      rewrite lookup_delete_ne in Ht' by congruence.
      destruct (Hreg tid' i Ht') as (_ & t' & Hc' & Hid' & _).
      rewrite Hc in Hc'. injection Hc' as <-. congruence.
    + rewrite list_lookup_insert_ne in Hj by congruence.
      rewrite (Hflag j b Hj). split.
      * intros (tid' & Ht'). exists tid'.
        rewrite lookup_delete_ne; [exact Ht'|]. intros <-. congruence.
      * intros (tid' & Ht').
        destruct (decide (tid' = tid)) as [->|Hne'];
          [rewrite lookup_delete_eq in Ht'; discriminate|].
        rewrite lookup_delete_ne in Ht' by congruence. eauto.
Qed.

Lemma wired_apply_op op s : wired s -> wired (apply_op op s).
Proof.
  destruct op as [target | tid | | tid value ts]; cbn [apply_op]; intros Hw.
  - by apply wired_start.
  - by apply wired_stop.
  - unfold stop_all. apply (stop_all_ids_preserves wired); [|assumption].
    intros; by apply wired_stop.
  - rewrite update_target_status_unfold. exact Hw.
Qed.

(** X5: in every state the supervisor reaches from a new manager, the
    task registered for an id was created for the target stored under that
    id and listens on the stop event registered for it, and a stop event
    is unset exactly while its task is registered: every task that was
    stopped has been signalled, and no running task has. *)
Theorem tasks_wired_to_stop_events (ops : list Op) : wired (run_ops ops init).
Proof.
  apply (run_ops_preserves wired); [apply wired_apply_op | apply wired_init].
Qed.

(** X6: [stop_monitoring] of a registered id sets the stop event of the
    task that was created for that id, which was unset, and no other: the
    events of all other tasks are as before, and those of the other
    registered ids are still unset. *)
Theorem stop_monitoring_signals_its_task (tid : UUID) (i : nat) (s : State)
    (Hw : wired s) (Htask : tasks (mm s) !! tid = Some i) :
  exists t,
    created_tasks s !! i = Some (t, i) /\ id t = tid /\
    events s !! i = Some false /\
    events (stop_monitoring tid s) = <[i := true]> (events s) /\
    events (stop_monitoring tid s) !! i = Some true /\
    (forall j, j <> i -> events (stop_monitoring tid s) !! j = events s !! j) /\
    (forall tid' j, tid' <> tid -> tasks (mm s) !! tid' = Some j ->
                    events (stop_monitoring tid s) !! j = Some false).
Proof.
  pose proof Hw as (Hlen & Hidx & Hreg & Hflag).
  destruct (Hreg tid i Htask) as (Hev & t & Hc & Hid & Ht).
  assert (Hlt : (i < length (events s))%nat).
  { rewrite Hlen. eapply lookup_lt_Some, Hc. }
  assert (Hunset : forall tid' j, tasks (mm s) !! tid' = Some j ->
                                  events s !! j = Some false).
  { intros tid' j Hj. destruct (Hreg tid' j Hj) as (_ & t' & Hc' & _).
    assert (Hlt' : (j < length (events s))%nat)
      by (rewrite Hlen; eapply lookup_lt_Some, Hc').
    destruct (lookup_lt_is_Some_2 _ _ Hlt') as [b Hb].
    rewrite Hb. f_equal. apply (Hflag j b Hb). eauto. }
  assert (Hevents : events (stop_monitoring tid s) = <[i := true]> (events s)).
  { rewrite stop_monitoring_unfold by eauto. rewrite Hev. reflexivity. }
  exists t. split; [exact Hc|]. split; [exact Hid|].
  split; [eapply Hunset, Htask|]. split; [exact Hevents|].
  rewrite Hevents. split; [apply list_lookup_insert_eq, Hlt|]. split.
  - intros j Hne. apply list_lookup_insert_ne. congruence.
  - intros tid' j Hne Hj.
    assert (j <> i).
    { intros ->. destruct (Hreg tid' i Hj) as (_ & t' & Hc' & Hid' & _).
      rewrite Hc in Hc'. injection Hc' as <-. congruence. }
    rewrite list_lookup_insert_ne by congruence. eapply Hunset, Hj.
Qed.

Lemma stop_monitoring_signals_its_task_witness :
  wired (start_monitoring db (start_monitoring web init)) /\
  events (stop_monitoring 9%N (start_monitoring db (start_monitoring web init)))
    = [false; true].
Proof.
  assert (Hw : wired (start_monitoring db (start_monitoring web init))).
  { apply wired_start, wired_start, wired_init. }
  split; [exact Hw|].
  destruct (stop_monitoring_signals_its_task 9%N 1%nat _ Hw eq_refl)
    as (t & _ & _ & _ & Hev & _).
  rewrite Hev. reflexivity.
Defined.

End ReachableFacts.

(** ** Removing a target over the API *)

Section RemoveClaims.
Import Models Manager Routes Props Notions.

(** X7: on a state whose definitions and tasks go together,
    [DELETE /targets/{id}] answers 404 for an unknown id and changes
    nothing; for a known id it answers 204, the id is gone from all four
    dictionaries, the active count is one lower, and what the supervisor
    returns for every other id is as before. *)
Theorem remove_target_removes (tid : UUID) (s : State)
    (Hinv : registered_have_status s) :
  match get_target tid s with
  | None => remove_target tid s = (NotFound, s)
  | Some _ =>
      fst (remove_target tid s) = NoContent /\
      let s' := snd (remove_target tid s) in
      get_target tid s' = None /\
      tasks (mm s') !! tid = None /\
      stop_events (mm s') !! tid = None /\
      target_statuses (mm s') !! tid = None /\
      get_active_count s' = get_active_count s - 1 /\
      (forall k, k <> tid ->
                 get_target_with_status k s' = get_target_with_status k s)
  end.
Proof.
  unfold remove_target.
  destruct (get_target tid s) as [t|] eqn:Hget; [|reflexivity].
  cbn [fst snd]. split; [reflexivity|].
  assert (Htask : is_Some (tasks (mm s) !! tid)).
  { destruct Hinv as (Ht & _ & _). apply elem_of_dom. rewrite <- Ht.
    apply elem_of_dom. unfold get_target in Hget. eauto. }
  rewrite (stop_monitoring_unfold tid s Htask).
  unfold get_target, get_target_with_status, get_active_count. cbn.
  rewrite !lookup_delete_eq.
  split; [reflexivity|]. split; [reflexivity|]. split; [reflexivity|].
  split; [reflexivity|]. split.
  - pose proof (map_size_delete_Some tid (tasks (mm s)) Htask) as Hsz.
    pose proof (map_size_ne_0_lookup_2 (tasks (mm s)) tid Htask) as Hnz.
    lia.
  - intros k Hne. rewrite !lookup_delete_ne by congruence. reflexivity.
Qed.

Lemma remove_target_removes_witness :
  registered_have_status (start_monitoring web init) /\
  remove_target 9%N (start_monitoring web init)
    = (NotFound, start_monitoring web init) /\
  get_active_count (snd (remove_target 7%N (start_monitoring web init))) = 0.
Proof.
  assert (Hr : registered_have_status (start_monitoring web init)).
  { apply start_monitoring_registered, lockstep_registered, lockstep_init. }
  split; [exact Hr|]. split.
  - exact (remove_target_removes 9%N _ Hr).
  - pose proof (remove_target_removes 7%N _ Hr) as H7.
    cbn in H7. destruct H7 as (_ & _ & _ & _ & _ & Hc & _).
    rewrite Hc. reflexivity.
Defined.

End RemoveClaims.

(** ** The scheduler: stopping and what it emits *)

Section SchedulerStop.
Import Models Monitoring Props Notions.
Context {Env : Type} (func : Target -> Env -> list TargetResult * option exn).




End SchedulerStop.

Section MonitorClaims.
Import Models Monitoring Props Notions.

Lemma monitor_stream_items target interval :
  forall obs next_run_time,
    map item (emitted (fst (wrapper_loop monitor_stream_body target interval
                              next_run_time obs))) =
    map (TargetResult_new (id target)) (returned_values (before_stop obs)).
Proof.
  unfold emitted, returned_values.
  induction obs as [|c obs IH]; intros nrt; cbn; [reflexivity|].
  unfold observes_stop.
  destruct (stop_at_test c) eqn:Htest; cbn; [reflexivity|].
  destruct (stop_after_wait c) eqn:Hwait; cbn; [reflexivity|].
  specialize (IH (nrt + inject_Z interval)%Q).
  destruct (wrapper_loop monitor_stream_body target interval
              (nrt + inject_Z interval)%Q obs) as [logs ex].
  cbn in IH. unfold monitor_stream_body.
  destruct (body_env c) as [e|v]; cbn; rewrite IH; reflexivity.
Qed.

(** X9: [monitor] puts on the queue, behind what is there and in order,
    one result for every poll that returned before the stop signal was
    seen, with the id of the target and the value returned, negative
    values included; a poll that raised adds nothing. *)
Theorem monitor_enqueues_returned_values (queue : list TargetResult)
    (target : Target) (start : Q) (obs : list (Cycle (exn + Z))) :
  monitor queue target start obs =
  queue ++ map (TargetResult_new (id target)) (returned_values (before_stop obs)).
Proof.
  unfold monitor, monitor_stream, wrapper. f_equal.
  apply monitor_stream_items.
Qed.

(** X10: the mock poll can only succeed for a timeout of at least 2. For
    a timeout of 1 or less every call returns -1, whatever is drawn: the
    sleep lasts at least one second, which is the whole timeout. For a
    timeout from 2 to 2^31 seconds, where the product [timeout * 1.2] is
    computed without overflow and rounds as [round_1_2] says, every
    reading from 0 to 100 is returned by some draw, after one second. *)
Theorem poll_needs_timeout_above_one (target : Target) :
  (timeout target <= 1 ->
   forall draw_sleep draw_value, fst (poll target draw_sleep draw_value) = -1) /\
  (2 <= timeout target <= 2 ^ 31 ->
   forall v, 0 <= v <= 100 -> poll target 0 v = (v, 1)).
Proof.
  split.
  - intros Hle d1 d2. unfold poll, poll_block.
    destruct (randint 1 (round_1_2 (timeout target)) d1) as [e|secs] eqn:Hs;
      [destruct e; reflexivity|].
    apply randint_range in Hs.
    assert (1 <= timeout target) by (apply round_1_2_positive; lia).
    destruct (Z.leb_spec (timeout target) secs); [reflexivity | lia].
  - intros [Hge _] v Hv. unfold poll, poll_block, randint.
    assert (Hround : 2 <= round_1_2 (timeout target)).
    { unfold round_1_2. change 2 with (29 / 10) at 1.
      apply Z.div_le_mono; lia. }
    destruct (Z.ltb_spec (round_1_2 (timeout target)) 1); [lia|].
    rewrite Z.mod_0_l by lia.
    destruct (Z.leb_spec (timeout target) (1 + 0)); [lia|].
    change (100 <? 0) with false. cbn [Z.sub Z.add].
    rewrite Z.mod_small by lia. reflexivity.
Qed.

Lemma poll_needs_timeout_above_one_witness :
  fst (poll (mkTarget (mkTargetCreate "fast" 1 1) 3%N) 5 50) = -1 /\
  poll web 0 100 = (100, 1).
Proof.
  split.
  - apply (proj1 (poll_needs_timeout_above_one
                    (mkTarget (mkTargetCreate "fast" 1 1) 3%N))).
    cbn. lia.
  - apply (proj2 (poll_needs_timeout_above_one web)); cbn; lia.
Defined.

End MonitorClaims.

(** ** The pipeline: counters, metrics and the stop event *)

Section PipelineMetrics.
Import Models Manager Outputs Props Notions.
Context {S : Type} `{OutputHandler S}.

Lemma process_item_metrics f r (p : OutputProcessor S) :
  let p' := fst (process_item f r p) in
  Metrics.PROCESSED_MESSAGES (metrics (monitor_manager p'))
    - Metrics.PROCESSED_MESSAGES (metrics (monitor_manager p))
    = processed_count p' - processed_count p /\
  Metrics.ACTIVE_TARGETS (metrics (monitor_manager p')) =
    Metrics.ACTIVE_TARGETS (metrics (monitor_manager p)) /\
  tasks (mm (monitor_manager p')) = tasks (mm (monitor_manager p)).
Proof.
  cbv zeta. rewrite process_item_outcome.
  destruct (validate_error f); [cbn; repeat split; lia|]. cbv zeta.
  destruct (handle r _ (handler p)) as [h1 [e|]];
    [cbn -[update_target_status]; rewrite update_target_status_unfold; cbn;
     repeat split; lia|].
  destruct (metrics_error f);
    [cbn -[update_target_status]; rewrite update_target_status_unfold; cbn;
     repeat split; lia|].
  unfold task_done. cbn [unfinished_tasks with_metrics with_manager
    processed_count_inc with_handler].
  destruct (unfinished_tasks p <=? 0);
    cbn -[update_target_status]; rewrite update_target_status_unfold; cbn;
    repeat split; lia.
Qed.

Lemma stop_all_metrics s :
  Metrics.PROCESSING_ERRORS (metrics (stop_all s)) = Metrics.PROCESSING_ERRORS (metrics s) /\
  Metrics.PROCESSED_MESSAGES (metrics (stop_all s)) = Metrics.PROCESSED_MESSAGES (metrics s).
Proof.
  unfold stop_all.
  apply (stop_all_ids_preserves
           (fun s' => Metrics.PROCESSING_ERRORS (metrics s') =
                        Metrics.PROCESSING_ERRORS (metrics s) /\
                      Metrics.PROCESSED_MESSAGES (metrics s') =
                        Metrics.PROCESSED_MESSAGES (metrics s)));
    [|split; reflexivity].
  intros tid s1 [H1 H2]. destruct (tasks (mm s1) !! tid) eqn:Ht.
  - rewrite stop_monitoring_unfold by eauto. cbn. split; assumption.
  - rewrite stop_monitoring_absent by assumption. split; assumption.
Qed.

(** The counters and their metrics after the item in the consumer's
    hands has gone through the [try] block and the [except] clause. *)
Lemma handled_metrics f r (p : OutputProcessor S) :
  let p' := match process_item f r p with
            | (p2, inr _) => p2
            | (p2, inl _) => on_error p2
            end in
  Outputs.error_count p' - Outputs.error_count p =
    Metrics.PROCESSING_ERRORS (metrics (monitor_manager p'))
    - Metrics.PROCESSING_ERRORS (metrics (monitor_manager p)) /\
  Metrics.PROCESSED_MESSAGES (metrics (monitor_manager p'))
    - Metrics.PROCESSED_MESSAGES (metrics (monitor_manager p))
    = processed_count p' - processed_count p /\
  Metrics.ACTIVE_TARGETS (metrics (monitor_manager p')) =
    Metrics.ACTIVE_TARGETS (metrics (monitor_manager p)) /\
  tasks (mm (monitor_manager p')) = tasks (mm (monitor_manager p)).
Proof.
  cbv zeta.
  pose proof (process_item_frame f r p) as (_ & He & _ & Hm & _).
  pose proof (process_item_metrics f r p) as (Hpm & Ha & Ht).
  destruct (process_item f r p) as [p2 [e|u]]; cbn [fst] in *.
  - unfold on_error. cbn in *. rewrite Ht. repeat split; lia.
  - rewrite Ht. repeat split; lia.
Qed.

Lemma manager_op_metrics (ev : Consumer.Event) (s : State) :
  let s' := match ev with
            | Consumer.Start target => start_monitoring target s
            | Consumer.Stop tid => stop_monitoring tid s
            | Consumer.StopAll => stop_all s
            | _ => s
            end in
  Metrics.PROCESSING_ERRORS (metrics s') = Metrics.PROCESSING_ERRORS (metrics s) /\
  Metrics.PROCESSED_MESSAGES (metrics s') = Metrics.PROCESSED_MESSAGES (metrics s).
Proof.
  cbv zeta. destruct ev as [r | target | tid | | | | | f]; try (split; reflexivity).
  - unfold start_monitoring.
    destruct (tasks (mm s) !! id target); cbn; split; reflexivity.
  - destruct (tasks (mm s) !! tid) eqn:Ht.
    + rewrite stop_monitoring_unfold by eauto. cbn. split; reflexivity.
    + rewrite stop_monitoring_absent by assumption. split; reflexivity.
  - apply stop_all_metrics.
Qed.

Lemma step_metrics (ev : Outputs.Event) (p : OutputProcessor S) :
  let p' := fst (Outputs.step ev p) in
  Outputs.error_count p' - Outputs.error_count p =
    Metrics.PROCESSING_ERRORS (metrics (monitor_manager p'))
    - Metrics.PROCESSING_ERRORS (metrics (monitor_manager p)) /\
  Metrics.PROCESSED_MESSAGES (metrics (monitor_manager p'))
    - Metrics.PROCESSED_MESSAGES (metrics (monitor_manager p))
    = processed_count p' - processed_count p.
Proof.
  cbv zeta. destruct ev as [r | target | tid | | | f]; cbn [Outputs.step fst].
  - cbn. lia.
  - cbn [with_manager monitor_manager Outputs.error_count processed_count].
    destruct (manager_op_metrics (Consumer.Start target) (monitor_manager p))
      as [-> ->]. lia.
  - cbn [with_manager monitor_manager Outputs.error_count processed_count].
    destruct (manager_op_metrics (Consumer.Stop tid) (monitor_manager p))
      as [-> ->]. lia.
  - cbn [with_manager monitor_manager Outputs.error_count processed_count].
    destruct (stop_all_metrics (monitor_manager p)) as [-> ->]. lia.
  - cbn. lia.
  - unfold turn. destruct (stop_event p); [cbn; lia|].
    cbn [queue with_metrics with_manager].
    destruct (queue p) as [|r rest]; [cbn; lia|].
    pose proof (handled_metrics f r
      (queue_pop (with_metrics
         (Metrics.queue_size_set (Z.of_nat (length (r :: rest)))) p)))
      as (He & Hp & _).
    cbv zeta in He, Hp.
    destruct (process_item f r _) as [p2 [e|u]]; cbn [fst] in *;
      cbn in He, Hp |- *; lia.
Qed.

Lemma consumer_step_metrics (ev : Consumer.Event) (c : Consumer.Consumer S) :
  let p := Consumer.proc c in
  let p' := Consumer.proc (Consumer.step ev c) in
  Outputs.error_count p' - Outputs.error_count p =
    Metrics.PROCESSING_ERRORS (metrics (monitor_manager p'))
    - Metrics.PROCESSING_ERRORS (metrics (monitor_manager p)) /\
  Metrics.PROCESSED_MESSAGES (metrics (monitor_manager p'))
    - Metrics.PROCESSED_MESSAGES (metrics (monitor_manager p))
    = processed_count p' - processed_count p.
Proof.
  cbv zeta. destruct c as [p k].
  destruct ev as [r | target | tid | | | | | f];
    cbn [Consumer.step Consumer.on_proc Consumer.proc Consumer.control].
  - cbn. lia.
  - cbn [with_manager monitor_manager Outputs.error_count processed_count].
    destruct (manager_op_metrics (Consumer.Start target) (monitor_manager p))
      as [-> ->]. lia.
  - cbn [with_manager monitor_manager Outputs.error_count processed_count].
    destruct (manager_op_metrics (Consumer.Stop tid) (monitor_manager p))
      as [-> ->]. lia.
  - cbn [with_manager monitor_manager Outputs.error_count processed_count].
    destruct (stop_all_metrics (monitor_manager p)) as [-> ->]. lia.
  - cbn. lia.
  - unfold Consumer.enter. cbn [Consumer.control Consumer.proc].
    destruct k; try (cbn; lia). destruct (stop_event p); cbn; lia.
  - unfold Consumer.take. cbn [Consumer.control Consumer.proc].
    destruct k; try (cbn; lia). destruct (queue p); cbn; lia.
  - unfold Consumer.resume. cbn [Consumer.control Consumer.proc].
    destruct k as [| |r|]; try (cbn; lia).
    + destruct (stop_event p); cbn; lia.
    + destruct (stop_event p); [cbn; lia|].
      pose proof (handled_metrics f r p) as (He & Hp & _). cbv zeta in He, Hp.
      destruct (process_item f r p) as [p2 [e|u]]; cbn [Consumer.proc]; lia.
Qed.

(** X12: over any events, whatever raises and however the steps of the
    consumer are interleaved with the rest, the consumer's error counter
    and the error metric grow by the same amount, and so do its processed
    counter and the metric of processed messages. *)
Theorem error_counter_matches_metric
    (evs : list Outputs.Event) (steps : list Consumer.Event)
    (p : OutputProcessor S) (c : Consumer.Consumer S) :
  let p' := fst (Outputs.run evs p) in
  let q := Consumer.proc c in
  let q' := Consumer.proc (Consumer.run steps c) in
  (Outputs.error_count p' - Outputs.error_count p =
     Metrics.PROCESSING_ERRORS (metrics (monitor_manager p'))
     - Metrics.PROCESSING_ERRORS (metrics (monitor_manager p)) /\
   Metrics.PROCESSED_MESSAGES (metrics (monitor_manager p'))
     - Metrics.PROCESSED_MESSAGES (metrics (monitor_manager p))
     = processed_count p' - processed_count p) /\
  (Outputs.error_count q' - Outputs.error_count q =
     Metrics.PROCESSING_ERRORS (metrics (monitor_manager q'))
     - Metrics.PROCESSING_ERRORS (metrics (monitor_manager q)) /\
   Metrics.PROCESSED_MESSAGES (metrics (monitor_manager q'))
     - Metrics.PROCESSED_MESSAGES (metrics (monitor_manager q))
     = processed_count q' - processed_count q).
Proof.
  cbv zeta. split.
  - revert p.
    induction evs as [|ev evs IH]; intros p; cbn [Outputs.run fst]; [lia|].
    pose proof (step_metrics ev p) as Hstep. cbv zeta in Hstep.
    destruct (Outputs.step ev p) as [p1 status]. cbn [fst] in Hstep.
    destruct status; try (specialize (IH p1); lia).
    cbn [fst]. lia.
  - induction steps as [|ev steps IH] using rev_ind; [cbn; lia|].
    rewrite run_snoc.
    pose proof (consumer_step_metrics ev (Consumer.run steps c)) as Hstep.
    cbv zeta in Hstep. lia.
Qed.

End PipelineMetrics.

Section PipelineAccounts.
Import Models Manager Outputs Props Notions Consumer.
Context {S : Type} `{OutputHandler S}.

Lemma held_range (c : Consumer S) : 0 <= held c <= 1.
Proof. unfold held. destruct (control c); lia. Qed.

(** X11: from a state where the queue's count of unfinished tasks covers
    the queued items and the item in the consumer's hands, and while no
    library call of the consumer raises, every result put on the queue is
    at any moment in exactly one place: in the queue, in the consumer's
    hands (taken by [get_task], not yet processed), processed, or lost
    (taken and never marked done). Neither counter ever decreases. The
    lost items are those counted as errors and at most one more: the item
    that the consumer held when it found the stop event set after its
    wait, and dropped. The consumer leaves its loop only with the stop
    event set. *)
Theorem pipeline_accounts_for_every_item
    (evs : list Event) (c : Consumer S)
    (Hacc : 0 <= lost c) (Hok : Forall library_ok evs) :
  let c' := run evs c in
  let errors := Outputs.error_count (proc c') - Outputs.error_count (proc c) in
  processed_count (proc c) <= processed_count (proc c') /\
  0 <= errors /\
  Z.of_nat (length (queue (proc c'))) + held c'
    + (processed_count (proc c') - processed_count (proc c))
    + (lost c' - lost c)
    = Z.of_nat (length (queue (proc c))) + held c + puts evs /\
  (lost c' - lost c = errors \/
   lost c' - lost c = errors + 1 /\ control c' = Left /\ control c <> Left) /\
  (control c' = Left -> control c = Left \/ stop_event (proc c') = true).
Proof.
  cbv zeta.
  destruct (run_accounts evs c) as (Hp & He & _ & _ & Hx & Hlost & _ & Heq).
  specialize (Heq Hok Hacc).
  split; [exact Hp|]. split; [lia|].
  split; [unfold lost in *; lia|].
  split; [exact Hlost | exact Hx].
Qed.

Lemma run_stopped (evs : list Event) (c : Consumer S) :
  stop_event (proc c) = true ->
  stop_event (proc (run evs c)) = true /\
  processed_count (proc (run evs c)) = processed_count (proc c) /\
  Outputs.error_count (proc (run evs c)) = Outputs.error_count (proc c) /\
  handler (proc (run evs c)) = handler (proc c).
Proof.
  intros Hstop. induction evs as [|ev evs IH] using rev_ind.
  - repeat split. exact Hstop.
  - rewrite run_snoc. destruct IH as (Hs & Hp & He & Hh).
    destruct (step_accounts ev (run evs c)) as (_ & _ & Hstep & _).
    destruct (Hstep Hs) as (Hs1 & Hp1 & He1 & Hh1).
    repeat split; congruence.
Qed.

(** X13: once the stop event is set the consumer processes nothing more,
    whatever events follow: the processed count, the error count and the
    handler stay as they are. The consumer's next step takes it out of
    the loop: the loop test when it is there, the second test of the stop
    event when it was waiting. An item that [get_task] had taken by then
    is dropped: it is neither processed nor counted as an error, it is not
    back in the queue, and it stays counted as unfinished. At most one
    item is lost in this way; every other item is still in the queue. *)
Theorem consumer_stops_at_next_turn (evs : list Event) (c : Consumer S)
    (Hstop : stop_event (proc c) = true) :
  let c' := run evs c in
  stop_event (proc c') = true /\
  processed_count (proc c') = processed_count (proc c) /\
  Outputs.error_count (proc c') = Outputs.error_count (proc c) /\
  handler (proc c') = handler (proc c) /\
  (control c = AtTest -> enter c = mkConsumer (proc c) Left) /\
  (control c = Suspended -> forall f, resume f c = mkConsumer (proc c) Left) /\
  (forall r, control c = Holding r ->
     forall f, resume f c = mkConsumer (proc c) Left /\
               lost (resume f c) = lost c + 1) /\
  (lost c' = lost c \/
   lost c' = lost c + 1 /\ control c' = Left /\ control c <> Left) /\
  Z.of_nat (length (queue (proc c'))) + held c' + (lost c' - lost c)
    = Z.of_nat (length (queue (proc c))) + held c + puts evs.
Proof.
  cbv zeta.
  destruct (run_stopped evs c Hstop) as (Hs & Hp & He & Hh).
  destruct (run_accounts evs c) as (_ & _ & _ & _ & _ & Hlost & Hle & _).
  split; [exact Hs|]. split; [exact Hp|]. split; [exact He|]. split; [exact Hh|].
  split; [intros Hc; unfold enter; rewrite Hc, Hstop; reflexivity|].
  split; [intros Hc f; unfold resume; rewrite Hc, Hstop; reflexivity|].
  split.
  { intros r Hc f. unfold resume. rewrite Hc, Hstop.
    split; [reflexivity|]. unfold lost, held. cbn [proc control]. rewrite Hc. lia. }
  split.
  { destruct Hlost as [Hd|(Hd & Hleft & Hne)];
      [left; lia | right; split; [lia | split; assumption]]. }
  assert (Hun : unfinished_tasks (proc (run evs c)) =
                unfinished_tasks (proc c) + puts evs).
  { clear Hlost Hle Hs Hp He Hh.
    induction evs as [|ev evs IH] using rev_ind; [unfold puts; cbn; lia|].
    rewrite run_snoc.
    destruct (run_stopped evs c Hstop) as (Hs & _).
    assert (Hputs : puts (evs ++ [ev]) = puts evs + (if is_put ev then 1 else 0)).
    { unfold puts. rewrite List.filter_app, length_app. cbn.
      destruct (is_put ev); cbn; lia. }
    rewrite Hputs, Z.add_assoc, <- IH. clear IH Hputs.
    destruct (run evs c) as [p k]. cbn [proc] in Hs.
    destruct ev as [r | target | tid | | | | | f];
      cbn [step on_proc proc control is_put]; try (cbn; lia).
    - unfold enter. cbn [control proc]. destruct k; try (cbn; lia).
      rewrite Hs. cbn. lia.
    - unfold take. cbn [control proc]. destruct k; try (cbn; lia).
      destruct (queue p); cbn; lia.
    - unfold resume. cbn [control proc]. destruct k; try (cbn; lia);
        rewrite Hs; cbn; lia. }
  unfold lost. lia.
Qed.

Lemma step_reliable_sink (ev : Event) (c : Consumer S) :
  never_raises S -> library_ok ev -> 0 <= lost c ->
  Outputs.error_count (proc (step ev c)) = Outputs.error_count (proc c).
Proof.
  intros Hnever Hok Hacc. destruct c as [p k].
  destruct ev as [r | target | tid | | | | | f];
    cbn [step on_proc proc control]; try reflexivity.
  - unfold enter. cbn [control proc]. destruct k; try reflexivity.
    destruct (stop_event p); reflexivity.
  - unfold take. cbn [control proc]. destruct k; try reflexivity.
    destruct (queue p); reflexivity.
  - cbn in Hok. subst f.
    destruct k as [| |r|]; try reflexivity.
    + unfold resume. cbn [control proc]. destruct (stop_event p); reflexivity.
    + destruct (stop_event p) eqn:Hstop;
        [unfold resume; cbn [control proc]; rewrite Hstop; reflexivity|].
      pose proof (resume_item no_faults (mkConsumer p (Holding r)) r eq_refl Hstop)
        as Hres.
      cbv zeta in Hres. cbn [proc control] in Hres.
      destruct Hres as (_ & _ & _ & [(_ & He & _) | (_ & _ & _ & Hno)]);
        [exact He|].
      unfold lost, held in Hacc. cbn [proc control] in Hacc.
      destruct Hno as [_ Hraised]; [reflexivity | lia |].
      rewrite Hnever in Hraised. contradiction.
Qed.

(** X14: with a sink whose [handle] never raises, and while no library
    call raises, the consumer counts no error, and no item is lost but
    the one that the consumer may drop when it leaves its loop. As long
    as it has not left, and when nothing was lost before, the queue's
    count of unfinished tasks is the number of queued items plus the item
    in the consumer's hands: [join] returns exactly when the queue is
    empty and the consumer holds no item. *)
Theorem reliable_sink_never_counts_errors
    (evs : list Event) (c : Consumer S)
    (Hnever : never_raises S) (Hacc : 0 <= lost c)
    (Hok : Forall library_ok evs) :
  let c' := run evs c in
  Outputs.error_count (proc c') = Outputs.error_count (proc c) /\
  (lost c' = lost c \/
   lost c' = lost c + 1 /\ control c' = Left /\ control c <> Left) /\
  (lost c = 0 -> control c' <> Left ->
   unfinished_tasks (proc c') = Z.of_nat (length (queue (proc c'))) + held c' /\
   (join_returns (proc c') = true <-> queue (proc c') = [] /\ held c' = 0)).
Proof.
  cbv zeta.
  assert (He : Outputs.error_count (proc (run evs c)) = Outputs.error_count (proc c)).
  { induction evs as [|ev evs IH] using rev_ind; [reflexivity|].
    apply Forall_app in Hok as [Hok Hev]. apply Forall_cons in Hev as [Hev _].
    rewrite run_snoc. rewrite <- (IH Hok).
    apply (step_reliable_sink ev (run evs c) Hnever Hev).
    destruct (run_accounts evs c) as (_ & He & _ & _ & _ & Hlost & _). lia. }
  destruct (run_accounts evs c) as (_ & _ & _ & _ & _ & Hlost & _).
  split; [exact He|]. split.
  { destruct Hlost as [Hd|(Hd & Hleft & Hne)];
      [left; lia | right; split; [lia | split; assumption]]. }
  intros Hzero Hin.
  assert (Hl : lost (run evs c) = 0)
    by (destruct Hlost as [?|(_ & ? & _)]; [lia | contradiction]).
  pose proof (held_range (run evs c)) as Hheld.
  unfold lost in Hl. split; [lia|].
  unfold join_returns. rewrite Z.eqb_eq. split.
  - intros Hu. split; [|lia].
    destruct (queue (proc (run evs c))); [reflexivity | cbn in *; lia].
  - intros [Hq Hh]. rewrite Hq in Hl. cbn in Hl. lia.
Qed.

(** X16: [result_queue.join()] of the shutdown sequence waits for the
    count of unfinished tasks to reach zero. Once an item is lost (taken
    from the queue and never marked done), that count stays above the
    number of queued items whatever happens, with or without an item in
    the consumer's hands: it never reaches zero again and [join] never
    returns. An item in the consumer's hands alone does not block [join]
    for good: with nothing lost, the queue empty and the stop event unset,
    [join] returns when the consumer has processed the item. *)
Theorem shutdown_waits_forever_after_lost_item (c : Consumer S) :
  (0 < lost c ->
   forall evs,
     let c' := run evs c in
     lost c <= lost c' /\
     Z.of_nat (length (queue (proc c'))) + held c' < unfinished_tasks (proc c') /\
     join_returns (proc c') = false) /\
  (forall r,
     lost c = 0 -> control c = Holding r -> queue (proc c) = [] ->
     stop_event (proc c) = false ->
     snd (handle r (target_name_of r (monitor_manager (proc c))) (handler (proc c)))
       = None ->
     join_returns (proc c) = false /\
     join_returns (proc (resume no_faults c)) = true).
Proof.
  split.
  - intros Hlost evs. cbv zeta.
    destruct (run_accounts evs c) as (_ & He & _ & _ & _ & Hl & _).
    pose proof (held_range (run evs c)) as Hheld.
    assert (Hmono : lost c <= lost (run evs c)) by lia.
    split; [exact Hmono|]. unfold lost in Hmono, Hlost.
    split; [lia|]. unfold join_returns. apply Z.eqb_neq. lia.
  - intros r Hzero Hc Hq Hstop Hhandle.
    unfold lost, held in Hzero. rewrite Hc, Hq in Hzero. cbn in Hzero.
    unfold join_returns. split; [apply Z.eqb_neq; lia|].
    pose proof (resume_item no_faults c r Hc Hstop) as Hres. cbv zeta in Hres.
    destruct Hres as (_ & _ & _ & [(_ & _ & Hu & _) | (_ & _ & _ & Hno)]).
    + apply Z.eqb_eq. lia.
    + destruct Hno as [_ Hraised]; [reflexivity | lia |].
      rewrite Hhandle in Hraised. contradiction.
Qed.

End PipelineAccounts.

Section PipelineAccountsExamples.
Import Models Manager Outputs Props Notions Consumer.

Lemma console_never_raises : never_raises (list ConsoleLine).
Proof.
  intros r nm h. unfold handle, ConsoleOutputHandler.
  destruct (String.eqb nm ""); reflexivity.
Qed.

(** The sink fails on the one queued result while another is put: one
    result is queued, one is lost, the error counter is 1. In the second
    run the stop event is set while [get_task] holds the result: the
    result is lost and no error is counted. *)
Lemma pipeline_accounts_for_every_item_witness :
  0 <= lost (mkConsumer one_queued AtTest) /\
  lost (run [Enter; Take; Put (mkTargetResult 7%N 1 (0 # 1)); Resume no_faults]
          (mkConsumer one_queued AtTest)) = 1 /\
  lost (run [Enter; Take; SetStop; Resume no_faults]
          (mkConsumer one_queued AtTest)) = 1 /\
  Outputs.error_count
    (proc (run [Enter; Take; SetStop; Resume no_faults]
             (mkConsumer one_queued AtTest))) = 0.
Proof.
  assert (Hacc : 0 <= lost (mkConsumer one_queued AtTest))
    by (vm_compute; discriminate).
  split; [exact Hacc|]. split; [|split; [|reflexivity]].
  - destruct (pipeline_accounts_for_every_item
                [Enter; Take; Put (mkTargetResult 7%N 1 (0 # 1)); Resume no_faults]
                (mkConsumer one_queued AtTest) Hacc)
      as (_ & _ & Hsum & _); [repeat constructor|].
    set (c' := run _ _) in *.
    assert (Hq : Z.of_nat (length (queue (proc c'))) = 1) by reflexivity.
    assert (Hh : held c' = 0) by reflexivity.
    assert (Hp : processed_count (proc c') = 0) by reflexivity.
    change (lost (mkConsumer one_queued AtTest)) with 0 in Hsum.
    change (processed_count (proc (mkConsumer one_queued AtTest))) with 0 in Hsum.
    change (Z.of_nat (length (queue (proc (mkConsumer one_queued AtTest)))))
      with 1 in Hsum.
    change (held (mkConsumer one_queued AtTest)) with 0 in Hsum.
    change (puts [Enter; Take; Put (mkTargetResult 7%N 1 (0 # 1)); Resume no_faults])
      with 1 in Hsum.
    lia.
  - destruct (pipeline_accounts_for_every_item
                [Enter; Take; SetStop; Resume no_faults]
                (mkConsumer one_queued AtTest) Hacc)
      as (_ & _ & Hsum & _); [repeat constructor|].
    set (c' := run _ _) in *.
    assert (Hq : Z.of_nat (length (queue (proc c'))) = 0) by reflexivity.
    assert (Hh : held c' = 0) by reflexivity.
    assert (Hp : processed_count (proc c') = 0) by reflexivity.
    change (lost (mkConsumer one_queued AtTest)) with 0 in Hsum.
    change (processed_count (proc (mkConsumer one_queued AtTest))) with 0 in Hsum.
    change (Z.of_nat (length (queue (proc (mkConsumer one_queued AtTest)))))
      with 1 in Hsum.
    change (held (mkConsumer one_queued AtTest)) with 0 in Hsum.
    change (puts [Enter; Take; SetStop; Resume no_faults]) with 0 in Hsum.
    lia.
Defined.

Lemma consumer_stops_at_next_turn_witness :
  let c := run [Enter; Take; SetStop] (mkConsumer one_queued AtTest) in
  stop_event (proc c) = true /\
  control c = Holding (mkTargetResult 7%N 42 (0 # 1)) /\
  control (resume no_faults c) = Left /\
  queue (proc (resume no_faults c)) = [] /\
  processed_count (proc (resume no_faults c)) = 0 /\
  unfinished_tasks (proc (resume no_faults c)) = 1 /\
  lost (resume no_faults c) = lost c + 1.
Proof.
  cbv zeta.
  destruct (consumer_stops_at_next_turn []
              (run [Enter; Take; SetStop] (mkConsumer one_queued AtTest)) eq_refl)
    as (_ & _ & _ & _ & _ & _ & Hdrop & _).
  destruct (Hdrop (mkTargetResult 7%N 42 (0 # 1)) eq_refl no_faults) as [Hres Hlost].
  split; [reflexivity|]. split; [reflexivity|].
  rewrite Hres. cbn [control proc].
  split; [reflexivity|]. split; [reflexivity|]. split; [reflexivity|].
  split; [reflexivity|].
  rewrite <- Hres. exact Hlost.
Defined.

Lemma reliable_sink_never_counts_errors_witness :
  never_raises (list ConsoleLine) /\
  Outputs.error_count
    (proc (run [Put (mkTargetResult 7%N (-1) (0 # 1)); Enter; Take; Resume no_faults]
             (mkConsumer (Outputs.init (start_monitoring web Manager.init) []) AtTest)))
    = 0.
Proof.
  split; [exact console_never_raises|].
  destruct (reliable_sink_never_counts_errors
              [Put (mkTargetResult 7%N (-1) (0 # 1)); Enter; Take; Resume no_faults]
              (mkConsumer (Outputs.init (start_monitoring web Manager.init) []) AtTest)
              console_never_raises) as (He & _).
  - vm_compute. discriminate.
  - repeat constructor.
  - exact He.
Defined.

Lemma shutdown_waits_forever_after_lost_item_witness :
  let c := run [Enter; Take; Resume no_faults] (mkConsumer one_queued AtTest) in
  0 < lost c /\
  join_returns (proc (run [Put (mkTargetResult 7%N 1 (0 # 1)); StopAll; Enter] c))
    = false.
Proof.
  cbv zeta.
  assert (Hlost : 0 < lost (run [Enter; Take; Resume no_faults]
                              (mkConsumer one_queued AtTest)))
    by (vm_compute; reflexivity).
  split; [exact Hlost|].
  apply (proj1 (shutdown_waits_forever_after_lost_item
                  (run [Enter; Take; Resume no_faults] (mkConsumer one_queued AtTest)))
           Hlost [Put (mkTargetResult 7%N 1 (0 # 1)); StopAll; Enter]).
Defined.

End PipelineAccountsExamples.

(** ** The output handler built from the settings *)

Section FactoryClaims.
Import Settings.

(** X17: [create_output_handler] builds the console handler for the
    console, NATS and Prometheus outputs, and for a file output it raises
    [AttributeError]: the model of the settings names its fields [path],
    [format], [max_bytes] and [backup_count], and the function reads
    [file_path]. No settings value makes it build a file handler. *)
Theorem create_output_handler_never_builds_file_handler (o : Output) :
  create_output_handler o =
    match o with
    | FileOutput _ _ _ _ => inl (NoAttribute "file_path")
    | _ => inr ConsoleHandler
    end /\
  forall p f m b, create_output_handler o <> inr (FileHandler p f m b).
Proof.
  assert (Heq : create_output_handler o =
                match o with
                | FileOutput _ _ _ _ => inl (NoAttribute "file_path")
                | _ => inr ConsoleHandler
                end) by (destruct o; reflexivity).
  split; [exact Heq|]. intros p f m b. rewrite Heq. destruct o; discriminate.
Qed.

End FactoryClaims.

(** ** Rotation of the output file *)

Section RotationClaims.
Import Rotation.

Lemma rotate_step_current fs i : current (rotate_step fs i) = current fs.
Proof. unfold rotate_step. destruct (backups fs !! i); reflexivity. Qed.

Lemma rotate_step_lookup fs i j :
  backups (rotate_step fs i) !! j =
  match backups fs !! i with
  | Some content =>
      if decide (j = i + 1) then Some content
      else if decide (j = i) then None
      else backups fs !! j
  | None => backups fs !! j
  end.
Proof.
  unfold rotate_step. destruct (backups fs !! i) as [content|] eqn:Hi;
    [|reflexivity].
  cbn. destruct (decide (j = i + 1)) as [->|Hne].
  - apply lookup_insert_eq.
  - rewrite lookup_insert_ne by congruence.
    destruct (decide (j = i)) as [->|Hne'].
    + apply lookup_delete_eq.
    + apply lookup_delete_ne. congruence.
Qed.

(** The loop over [n, ..., 1]: every backup from 1 to [n] that exists
    moves up by one. *)
Lemma rotate_loop_lookup n :
  forall fs j,
    backups (foldl rotate_step fs (count_down n)) !! j =
    if decide (1 <= j <= Z.of_nat n + 1) then
      match (if decide (2 <= j) then backups fs !! (j - 1) else None) with
      | Some content => Some content
      | None => if decide (j <= Z.of_nat n) then None else backups fs !! j
      end
    else backups fs !! j.
Proof.
  induction n as [|n IH]; intros fs j.
  - cbn [count_down foldl].
    destruct (decide (1 <= j <= Z.of_nat 0 + 1)) as [Hj|Hj]; [|reflexivity].
    rewrite decide_False by lia. rewrite decide_False by lia. reflexivity.
  - cbn [count_down foldl]. rewrite IH. rewrite !rotate_step_lookup.
    replace (Z.of_nat (S n)) with (Z.of_nat n + 1) by lia.
    destruct (backups fs !! (Z.of_nat n + 1)) as [top|] eqn:Htop.
    + destruct (decide (1 <= j <= Z.of_nat n + 1)) as [Hj|Hj].
      * rewrite (decide_True (P := 1 <= j <= Z.of_nat n + 1 + 1)) by lia.
        rewrite (decide_False (P := j - 1 = Z.of_nat n + 1 + 1)) by lia.
        rewrite (decide_False (P := j - 1 = Z.of_nat n + 1)) by lia.
        destruct (if decide (2 <= j) then backups fs !! (j - 1) else None);
          [reflexivity|].
        rewrite (decide_True (P := j <= Z.of_nat n + 1)) by lia.
        destruct (decide (j <= Z.of_nat n)); [reflexivity|].
        rewrite (decide_False (P := j = Z.of_nat n + 1 + 1)) by lia.
        rewrite (decide_True (P := j = Z.of_nat n + 1)) by lia. reflexivity.
      * destruct (decide (j = Z.of_nat n + 1 + 1)) as [->|Hne].
        -- rewrite decide_True by lia. rewrite decide_True by lia.
           replace (Z.of_nat n + 1 + 1 - 1) with (Z.of_nat n + 1) by lia.
           rewrite Htop. reflexivity.
        -- rewrite (decide_False (P := j = Z.of_nat n + 1)) by lia.
           rewrite decide_False by lia. reflexivity.
    + destruct (decide (1 <= j <= Z.of_nat n + 1)) as [Hj|Hj].
      * rewrite (decide_True (P := 1 <= j <= Z.of_nat n + 1 + 1)) by lia.
        destruct (if decide (2 <= j) then backups fs !! (j - 1) else None);
          [reflexivity|].
        rewrite (decide_True (P := j <= Z.of_nat n + 1)) by lia.
        destruct (decide (j <= Z.of_nat n)); [reflexivity|].
        replace j with (Z.of_nat n + 1) by lia. exact Htop.
      * destruct (decide (j = Z.of_nat n + 1 + 1)) as [->|Hne].
        -- rewrite decide_True by lia. rewrite decide_True by lia.
           replace (Z.of_nat n + 1 + 1 - 1) with (Z.of_nat n + 1) by lia.
           rewrite Htop. rewrite decide_False by lia. reflexivity.
        -- rewrite decide_False by lia. reflexivity.
Qed.

Lemma rotate_loop_current l : forall fs, current (foldl rotate_step fs l) = current fs.
Proof.
  induction l as [|i l IH]; intros fs; cbn; [reflexivity|].
  rewrite IH. apply rotate_step_current.
Qed.

(** Below [max_bytes], or without an output file, nothing moves. *)
Lemma rotate_file_unchanged (max_bytes backup_count : Z) (fs : Files) :
  match current fs with
  | None => True
  | Some content => st_size content < max_bytes
  end ->
  rotate_file max_bytes backup_count fs = fs.
Proof.
  unfold rotate_file. destruct (current fs) as [content|]; [|reflexivity].
  intros Hlt. rewrite (proj2 (Z.leb_gt _ _)) by lia. reflexivity.
Qed.

(** The files after a rotation. *)
Lemma rotate_file_rotated (max_bytes backup_count : Z) (fs : Files) content :
  current fs = Some content -> max_bytes <= st_size content ->
  current (rotate_file max_bytes backup_count fs) = None /\
  forall j,
    backups (rotate_file max_bytes backup_count fs) !! j =
    if decide (j = 1) then Some content
    else if decide (2 <= j <= backup_count) then
      match backups fs !! (j - 1) with
      | Some moved => Some moved
      | None => if decide (j < backup_count) then None else backups fs !! j
      end
    else backups fs !! j.
Proof.
  intros Hc Hge. unfold rotate_file. rewrite Hc.
  rewrite (proj2 (Z.leb_le _ _)) by lia. cbn [current backups].
  split; [reflexivity|]. intros j.
  destruct (decide (j = 1)) as [->|Hne]; [apply lookup_insert_eq|].
  rewrite lookup_insert_ne by congruence.
  unfold range_down. rewrite rotate_loop_lookup.
  destruct (Z.le_gt_cases backup_count 1) as [Hsmall|Hbig].
  + replace (Z.to_nat (backup_count - 1)) with 0%nat by lia.
    rewrite decide_False by lia. rewrite decide_False by lia. reflexivity.
  + rewrite Z2Nat.id by lia.
    destruct (decide (2 <= j <= backup_count)) as [Hj|Hj].
    * rewrite decide_True by lia. rewrite decide_True by lia.
      destruct (backups fs !! (j - 1)); [reflexivity|].
      destruct (decide (j < backup_count)).
      -- rewrite decide_True by lia. reflexivity.
      -- rewrite decide_False by lia. reflexivity.
    * rewrite decide_False by lia. reflexivity.
Qed.

(** X18: [_rotate_file] does nothing when the output file is missing or
    smaller than [max_bytes]. Otherwise the output file becomes backup 1
    and is no longer there; every existing backup [j - 1] with
    [2 <= j <= backup_count] becomes backup [j], replacing what was there;
    a backup below [backup_count] that is not replaced has moved away; the
    backup [backup_count] stays when there is no backup below it to
    replace it, and backups beyond [backup_count] are not touched. With
    [backup_count <= 1] the output file still becomes backup 1. *)
Theorem rotate_file_shifts_backups (max_bytes backup_count : Z) (fs : Files) :
  match current fs with
  | None => rotate_file max_bytes backup_count fs = fs
  | Some content =>
      if st_size content <? max_bytes
      then rotate_file max_bytes backup_count fs = fs
      else
        current (rotate_file max_bytes backup_count fs) = None /\
        forall j,
          backups (rotate_file max_bytes backup_count fs) !! j =
          if decide (j = 1) then Some content
          else if decide (2 <= j <= backup_count) then
            match backups fs !! (j - 1) with
            | Some moved => Some moved
            | None => if decide (j < backup_count) then None else backups fs !! j
            end
          else backups fs !! j
  end.
Proof.
  destruct (current fs) as [content|] eqn:Hc.
  - destruct (Z.ltb_spec (st_size content) max_bytes) as [Hlt|Hge].
    + apply rotate_file_unchanged. rewrite Hc. exact Hlt.
    + apply (rotate_file_rotated max_bytes backup_count fs content Hc Hge).
  - apply rotate_file_unchanged. rewrite Hc. exact I.
Qed.



End RotationClaims.

(** ** Registration and the statistics *)

Section StartClaims.
Import Models Manager Props Notions.

(** X20: [start_monitoring] of a target whose id has no task registers
    it with a zero status, whatever status or definition was stored under
    that id before; the active count is one higher, one task is created,
    bound to the target and to a new stop event that is not set, and what
    the supervisor returns for every other id is as before. *)
Theorem start_monitoring_registers_with_zero_status (target : Target) (s : State)
    (Htask : tasks (mm s) !! id target = None) :
  let s' := start_monitoring target s in
  get_target_with_status (id target) s' = Some (target, TargetStatus_new) /\
  get_active_count s' = get_active_count s + 1 /\
  created_tasks s' = created_tasks s ++ [(target, length (events s))] /\
  events s' = events s ++ [false] /\
  stop_events (mm s') !! id target = Some (length (events s)) /\
  (forall k, k <> id target ->
             get_target_with_status k s' = get_target_with_status k s).
Proof.
  cbv zeta. unfold start_monitoring. rewrite Htask.
  unfold get_target_with_status, get_active_count. cbn.
  rewrite !lookup_insert_eq. cbn.
  rewrite (map_size_insert_None _ _ _ Htask).
  split; [reflexivity|]. split; [lia|]. split; [reflexivity|].
  split; [reflexivity|]. split; [reflexivity|].
  intros k Hne. rewrite !lookup_insert_ne by congruence. reflexivity.
Qed.

Lemma start_monitoring_registers_with_zero_status_witness :
  tasks (mm (update_target_status 7%N (-1) (0 # 1) init)) !! id web = None /\
  get_target_with_status 7%N
    (start_monitoring web (update_target_status 7%N (-1) (0 # 1) init))
    = Some (web, TargetStatus_new).
Proof.
  split; [reflexivity|].
  apply (start_monitoring_registers_with_zero_status web
           (update_target_status 7%N (-1) (0 # 1) init)).
  reflexivity.
Defined.

End StartClaims.

Section StatsClaims.
Import Models Manager Outputs Props Notions Api Consumer.
Context {S : Type} `{OutputHandler S}.

Lemma step_gauge (ev : Event) (c : Consumer S) :
  Metrics.ACTIVE_TARGETS (metrics (monitor_manager (proc (step ev c))))
    - get_active_count (monitor_manager (proc (step ev c))) =
  Metrics.ACTIVE_TARGETS (metrics (monitor_manager (proc c)))
    - get_active_count (monitor_manager (proc c)).
Proof.
  destruct c as [p k].
  destruct ev as [r | target | tid | | | | | f];
    cbn [step on_proc proc control];
    cbn [with_manager monitor_manager queue_put set_stop_event].
  - reflexivity.
  - apply (apply_op_gauge (OpStart target)).
  - apply (apply_op_gauge (OpStop tid)).
  - apply (apply_op_gauge OpStopAll).
  - reflexivity.
  - unfold enter. cbn [control proc]. destruct k; try reflexivity.
    destruct (stop_event p); reflexivity.
  - unfold take. cbn [control proc]. destruct k; try reflexivity.
    destruct (queue p); reflexivity.
  - unfold resume. cbn [control proc]. destruct k as [| |r|]; try reflexivity.
    + destruct (stop_event p); reflexivity.
    + destruct (stop_event p); [reflexivity|].
      pose proof (handled_metrics f r p) as (_ & _ & Ha & Ht). cbv zeta in Ha, Ht.
      destruct (process_item f r p) as [p2 [e|u]]; cbn [proc];
        unfold get_active_count; rewrite Ht, Ha; reflexivity.
Qed.

(** X21: the statistics of a pipeline that started empty, read at any
    moment while no library call raises. The queue size, the processed
    messages and the errors add up to the number of results that were put
    on the queue, less the result in the consumer's hands (taken by
    [get_task] and not yet processed), as long as the consumer has not
    left its loop; once it has, at most one more result is missing from
    the sum, the one it dropped at the exit. The active targets are the
    value of the active-targets gauge; no number is negative. *)
Theorem stats_add_up (evs : list Event) (h : S) (now start_time : Q)
    (Hok : Forall library_ok evs) :
  let c' := run evs (mkConsumer (Outputs.init Manager.init h) AtTest) in
  let stats := get_stats now start_time (proc c') in
  let sum := queue_size stats + processed_messages stats + total_errors stats in
  (control c' <> Left -> sum + held c' = puts evs) /\
  (control c' = Left -> sum <= puts evs <= sum + 1) /\
  active_targets stats =
    Metrics.ACTIVE_TARGETS (metrics (monitor_manager (proc c'))) /\
  0 <= active_targets stats /\ 0 <= queue_size stats /\
  0 <= processed_messages stats /\ 0 <= total_errors stats /\
  uptime_seconds stats = (now - start_time)%Q.
Proof.
  cbv zeta. unfold get_stats.
  cbn [queue_size processed_messages total_errors active_targets uptime_seconds].
  set (c0 := mkConsumer (Outputs.init Manager.init h) AtTest).
  destruct (run_accounts evs c0) as (Hp & He & _ & _ & _ & Hlost & _ & Heq).
  assert (Hacc : 0 <= lost c0) by (unfold lost, held; cbn; lia).
  specialize (Heq Hok Hacc).
  assert (Hl0 : lost c0 = 0) by reflexivity.
  assert (Hu0 : unfinished_tasks (proc c0) = 0) by reflexivity.
  assert (Hp0 : processed_count (proc c0) = 0) by reflexivity.
  assert (He0 : Outputs.error_count (proc c0) = 0) by reflexivity.
  assert (Hheld : held (run evs c0) = 0 \/ control (run evs c0) <> Left).
  { unfold held. destruct (control (run evs c0)); auto; right; discriminate. }
  assert (Hg : Metrics.ACTIVE_TARGETS (metrics (monitor_manager (proc (run evs c0))))
                 - get_active_count (monitor_manager (proc (run evs c0))) = 0).
  { clear. induction evs as [|ev evs IH] using rev_ind; [reflexivity|].
    rewrite run_snoc, step_gauge. exact IH. }
  rewrite Hl0 in Hlost. unfold lost in Hlost.
  pose proof (held_range (run evs c0)) as Hrange.
  unfold get_active_count in Hg |- *.
  split.
  { intros Hin. destruct Hlost as [Hd|(_ & Hleft & _)]; [lia | contradiction]. }
  split.
  { intros Hleft. destruct Hheld as [Hz|Hin]; [|contradiction].
    destruct Hlost as [Hd|(Hd & _)]; lia. }
  split; [lia|]. split; [lia|]. split; [lia|].
  split; [lia|]. split; [lia | reflexivity].
Qed.

End StatsClaims.

Section StatsExamples.
Import Models Manager Outputs Props Notions Api Consumer.

(** A request for the statistics between the step of [get_task] and the
    consumer's: two results were put, one is queued and the other is in
    neither count. *)
Lemma stats_add_up_witness :
  let evs := [Start web; Put (mkTargetResult 7%N 42 (0 # 1)); Enter;
              Put (mkTargetResult 7%N (-1) (0 # 1)); Take] in
  let c' := run evs (mkConsumer (Outputs.init Manager.init broken_file) AtTest) in
  let stats := get_stats (9 # 1) (2 # 1) (proc c') in
  control c' = Holding (mkTargetResult 7%N 42 (0 # 1)) /\
  puts evs = 2 /\
  queue_size stats + processed_messages stats + total_errors stats = 1.
Proof.
  cbv zeta.
  destruct (stats_add_up
              [Start web; Put (mkTargetResult 7%N 42 (0 # 1)); Enter;
               Put (mkTargetResult 7%N (-1) (0 # 1)); Take]
              broken_file (9 # 1) (2 # 1)) as (Hsum & _); [repeat constructor|].
  cbv zeta in Hsum.
  set (c' := run _ _) in *.
  assert (Hc : control c' = Holding (mkTargetResult 7%N 42 (0 # 1))) by reflexivity.
  split; [exact Hc|]. split; [reflexivity|].
  assert (Hin : control c' <> Left) by (rewrite Hc; discriminate).
  specialize (Hsum Hin).
  assert (Hh : held c' = 1) by reflexivity.
  change (puts [Start web; Put (mkTargetResult 7%N 42 (0 # 1)); Enter;
                Put (mkTargetResult 7%N (-1) (0 # 1)); Take]) with 2 in Hsum.
  lia.
Defined.

End StatsExamples.
